(** * Chat endpoint of the Metaplex Genesis MCP demo

    A shallow embedding of the request handler [POST] of [app/api/chat]
    (tool executor, step-history scan, reply synthesis, final-text scan and
    response classification) and of [callMcpTool] of [lib/mcp.ts], with
    theorems about the transaction-extraction logic; then of the module
    state of [lib/mcp.ts], of the handler from the request on (schema,
    messages, system prompt) and of the chat component [ChatInterface],
    with properties of their own.

    Conventions of the embedding.
    - A JavaScript string is a [string] (its UTF-8 bytes); the handler
      only compares strings with ASCII literals, concatenates them and
      tests them for emptiness.
    - A JSON value is a [json]; [option json] adds [undefined] ([None]).
    - An exception is explicit: a computation that may throw returns an
      [outcome]; [try]/[catch] is [otry] or [mtry].  The two variables the
      scan assigns, [transactionData] and [toolError], live in a state
      that survives a throw, as JavaScript assignments do.
    - The built-ins of the platform ([JSON.parse], [JSON.stringify],
      [String.prototype.match]) are the fields of the class [JSRuntime]; the
      theorems hold for every runtime, and [RefRuntime] gives an executable
      one. *)

From Stdlib Require Import String Ascii List ZArith Bool Lia.
From Stdlib Require Import Decimal DecimalString DecimalPos DecimalFacts.
Import ListNotations.
Local Open Scope list_scope.
Local Open Scope string_scope.

(* ------------------------------------------------------------------ *)
(** ** Strings *)

Definition nl : string := String "010"%char EmptyString.
Definition dquote : string := String "034"%char EmptyString.

(** ["transaction"], quotes included. *)
Definition quoted (s : string) : string := dquote ++ s ++ dquote.

(** [s.startsWith(p)]. *)
Definition startsWith (s p : string) : bool := String.prefix p s.

(** [s.includes(p)]. *)
Fixpoint includes (s p : string) : bool :=
  String.prefix p s ||
  match s with
  | EmptyString => false
  | String _ s' => includes s' p
  end.

(** [texts.join(sep)]. *)
Definition join (sep : string) (texts : list string) : string :=
  String.concat sep texts.

(** Truthiness of a string: [""] is the only falsy one. *)
Definition truthy_str (s : string) : bool :=
  match s with EmptyString => false | String _ _ => true end.

(* ------------------------------------------------------------------ *)
(** ** JSON values and JavaScript values

    The values [JSON.parse] produces.  A number is kept as an integer: the
    handler only tests a number for truthiness and writes it back.  An
    object keeps its fields in order. *)

#[warnings="-register-all"]
Inductive json : Type :=
| JNull
| JBool (b : bool)
| JNum (n : Z)
| JStr (s : string)
| JArr (items : list json)
| JObj (fields : list (string * json)).

(** First binding of [k] in the field list of an object. *)
Fixpoint lookup (k : string) (fields : list (string * json)) : option json :=
  match fields with
  | [] => None
  | (k', v) :: rest => if String.eqb k k' then Some v else lookup k rest
  end.

(** JavaScript truthiness. *)
Definition truthy (v : json) : bool :=
  match v with
  | JNull => false
  | JBool b => b
  | JNum n => negb (Z.eqb n 0)
  | JStr s => truthy_str s
  | JArr _ => true
  | JObj _ => true
  end.

(** Truthiness of a value that may be [undefined]. *)
Definition truthy_opt (o : option json) : bool :=
  match o with
  | Some v => truthy v
  | None => false
  end.

Definition truthy_opt_str (o : option string) : bool :=
  match o with
  | Some s => truthy_str s
  | None => false
  end.

(** [v === "lit"] for a value that may be [undefined]. *)
Definition strict_eq_str (o : option json) (lit : string) : bool :=
  match o with
  | Some (JStr s) => String.eqb s lit
  | _ => false
  end.

(* ------------------------------------------------------------------ *)
(** ** Exceptions *)

Inductive exn : Type :=
| TypeError (msg : string)
| SyntaxError (msg : string)
| Error (msg : string).

Definition message (e : exn) : string :=
  match e with
  | TypeError m => m
  | SyntaxError m => m
  | Error m => m
  end.

Inductive outcome (A : Type) : Type :=
| Ret (a : A)
| Throw (e : exn).
Arguments Ret {A} a.
Arguments Throw {A} e.

Definition obind {A B} (m : outcome A) (k : A -> outcome B) : outcome B :=
  match m with
  | Ret a => k a
  | Throw e => Throw e
  end.

(** [try { m } catch (e) { h e }]. *)
Definition otry {A} (m : outcome A) (h : exn -> outcome A) : outcome A :=
  match m with
  | Ret a => Ret a
  | Throw e => h e
  end.

(** Property read [v.k] for the keys the handler reads ([transaction],
    [type], [text], [baseMint]): it throws on [null], gives the field of an
    object, and [undefined] on a boolean, number, string or array, none of
    which has a property of such a name. *)
Definition get_prop (v : json) (k : string) : outcome (option json) :=
  match v with
  | JNull =>
      Throw (TypeError
               ("Cannot read properties of null (reading '" ++ k ++ "')"))
  | JObj fields => Ret (lookup k fields)
  | _ => Ret None
  end.

(** The receiver of [x.startsWith(...)]: only a string has the method. *)
Definition string_receiver (o : option json) : outcome string :=
  match o with
  | Some (JStr s) => Ret s
  | _ => Throw (TypeError "item.text.startsWith is not a function")
  end.

(* ------------------------------------------------------------------ *)
(** ** Regular expressions of the handler *)

Inductive char_class : Type :=
| AnyChar       (* [\s\S] *)
| WhiteSpace.   (* \s *)

Inductive regex_atom : Type :=
| Chars (s : string)            (* literal characters *)
| Star (c : char_class)         (* c*  : greedy *)
| LazyStar (c : char_class)     (* c*? : lazy *)
| GroupOpen                     (* (  *)
| GroupClose.                   (* )  *)

Definition regex : Type := list regex_atom.

(** [/```json\s*({[\s\S]*?"transaction"[\s\S]*?})\s*```/] *)
Definition re_fenced : regex :=
  [ Chars "```json"; Star WhiteSpace; GroupOpen;
    Chars "{"; LazyStar AnyChar; Chars (quoted "transaction");
    LazyStar AnyChar; Chars "}"; GroupClose;
    Star WhiteSpace; Chars "```" ].

(** [/({[\s\S]*?"transaction"[\s\S]*?})/] *)
Definition re_bare : regex :=
  [ GroupOpen;
    Chars "{"; LazyStar AnyChar; Chars (quoted "transaction");
    LazyStar AnyChar; Chars "}"; GroupClose ].

(* ------------------------------------------------------------------ *)
(** ** The platform's built-ins *)

Class JSRuntime : Type := {
  (** [JSON.parse(s)]; [None] when it throws a [SyntaxError]. *)
  JSON_parse : string -> option json;
  (** [JSON.stringify(v)]. *)
  JSON_stringify : json -> string;
  (** [JSON.stringify(v, null, 2)]. *)
  JSON_stringify_indent2 : json -> string;
  (** [s.match(re)]: [None] when there is no match, else the text of
      capture group 1 of the leftmost match ([m[1]]). *)
  String_match : string -> regex -> option string
}.

(** What the theorems use of the built-ins: no JSON text begins with the
    letter E, and [JSON.parse] reads back what [JSON.stringify] writes of a
    value that [JSON.parse] produced. *)
Class JSONLaws (rt : JSRuntime) : Prop := {
  JSON_parse_rejects_E :
    forall rest, JSON_parse (String "E"%char rest) = None;
  JSON_parse_stringify :
    forall s v, JSON_parse s = Some v -> JSON_parse (JSON_stringify v) = Some v
}.

(* ------------------------------------------------------------------ *)
(** ** Data model *)

(** An item of a tool result's [content] array: [{ type, text? }]. *)
Record ContentItem : Type := mkContentItem {
  item_type : string;
  item_text : option string
}.

(** What the tool bridge returns: [{ content?, isError? }]. *)
Record ToolResult : Type := mkToolResult {
  content : option (list ContentItem);
  isError : bool
}.

(** A part of [step.content]; [output] is what a ["tool-result"] part
    carries, [None] when the part has none. *)
Record ContentPart : Type := mkContentPart {
  part_type : string;
  output : option json
}.

Record ToolCall : Type := mkToolCall {
  toolName : string;
  input : json
}.

(** An entry of [step.toolResults]; [tr_result] is [tr.result]. *)
Record ToolResultEntry : Type := mkToolResultEntry {
  tr_result : option json
}.

Record Step : Type := mkStep {
  step_content : option (list ContentPart);
  toolCalls : option (list ToolCall);
  toolResults : option (list ToolResultEntry)
}.

(** What [generateText] resolves to. *)
Record GenResult : Type := mkGenResult {
  text : string;
  steps : list Step
}.

(** The [result] field of a reply: [{ content: [...] }]. *)
Record ResultEnvelope : Type := mkEnvelope {
  env_content : list ContentItem
}.

(** The body of a 200 response; an [undefined] field is [None]. *)
Record ChatReply : Type := mkReply {
  reply_type : string;
  reply_content : string;
  reply_tool : option string;
  reply_result : option ResultEnvelope
}.

Inductive http_response : Type :=
| Http200 (body : ChatReply)
| Http500 (error details : string).

(* ------------------------------------------------------------------ *)
(** ** Tool bridge ([lib/mcp.ts]) *)

(** The connected MCP client: [client.callTool({ name, arguments })]
    resolves to a tool result or rejects. *)
Class McpClient : Type := {
  client_callTool : string -> json -> outcome ToolResult
}.

Definition callMcpTool `{McpClient} (name : string) (args : json)
  : outcome ToolResult :=
  client_callTool name args.

(* ------------------------------------------------------------------ *)
(** ** The meta-tool executor ([execute_mcp_tool.execute]) *)

Section Execute.
Context {rt : JSRuntime} {mcp : McpClient}.

(** [JSON.parse] as a computation that may throw. *)
Definition parse_or_throw (s : string) : outcome json :=
  match JSON_parse s with
  | Some v => Ret v
  | None => Throw (SyntaxError "Unexpected token in JSON")
  end.

(** [c.type === "text" && c.text] *)
Definition is_text_item (c : ContentItem) : bool :=
  String.eqb (item_type c) "text" && truthy_opt_str (item_text c).

Definition text_of (c : ContentItem) : string :=
  match item_text c with
  | Some t => t
  | None => ""
  end.

(** [result.content.filter(...).map(c => c.text)] *)
Definition texts_of (items : list ContentItem) : list string :=
  map text_of (filter is_text_item items).

Definition execute (tool_name argsStr : string) : outcome string :=
  otry
    (match parse_or_throw argsStr with
     | Throw _ => Ret "Error: arguments must be a valid JSON string."
     | Ret args =>
         obind (callMcpTool tool_name args) (fun result =>
         let joined :=
           match content result with
           | Some items =>
               let texts := texts_of items in
               if Nat.ltb 0 (length texts) then Some (join nl texts) else None
           | None => None
           end in
         match joined with
         | Some s => Ret s
         | None =>
             if isError result
             then Ret "Tool execution failed with an unknown error."
             else Ret "Tool executed successfully but returned no content."
         end)
     end)
    (fun error => Ret ("Error executing tool: " ++ message error)).

End Execute.

(* ------------------------------------------------------------------ *)
(** ** The scan's variables and its monad *)

(** [let transactionData = null; let toolError = null;] *)
Record scan_state : Type := mkScan {
  transactionData : option json;
  toolError : option string
}.

Definition scan_init : scan_state := mkScan None None.

(** A computation that reads and assigns the two variables and may throw;
    the state it leaves behind is kept when it throws. *)
Definition M (A : Type) : Type := scan_state -> outcome A * scan_state.

Definition mret {A} (a : A) : M A := fun st => (Ret a, st).

Definition mbind {A B} (m : M A) (k : A -> M B) : M B :=
  fun st =>
    match m st with
    | (Ret a, st') => k a st'
    | (Throw e, st') => (Throw e, st')
    end.

Definition lift {A} (o : outcome A) : M A := fun st => (o, st).

(** [try { m } catch (e) { h e }] *)
Definition mtry {A} (m : M A) (h : exn -> M A) : M A :=
  fun st =>
    match m st with
    | (Ret a, st') => (Ret a, st')
    | (Throw e, st') => h e st'
    end.

Definition set_transactionData (v : json) : M unit :=
  fun st => (Ret tt, mkScan (Some v) (toolError st)).

Definition set_toolError (s : string) : M unit :=
  fun st => (Ret tt, mkScan (transactionData st) (Some s)).

Declare Scope js_scope.
Delimit Scope js_scope with js.
Notation "x <- m ;; k" := (mbind m (fun x => k))
  (at level 100, m at next level, right associativity) : js_scope.

(** [for (const x of l) { body x }] *)
Fixpoint for_each {A} (l : list A) (body : A -> M unit) : M unit :=
  match l with
  | [] => mret tt
  | x :: rest => mbind (body x) (fun _ => for_each rest body)
  end.

(* ------------------------------------------------------------------ *)
(** ** The request handler ([POST]) *)

Section Handler.
Context {rt : JSRuntime}.
Local Open Scope js_scope.

(** The body of [for (const item of parsed)]: an item of the old MCP
    format. *)
Definition scan_legacy_item (item : json) : M unit :=
  ty <- lift (get_prop item "type") ;;
  if strict_eq_str ty "text" then
    txt <- lift (get_prop item "text") ;;
    if truthy_opt txt then
      s <- lift (string_receiver txt) ;;
      if startsWith s "Error:" then set_toolError s
      else
        mtry
          (innerParsed <- lift (parse_or_throw s) ;;
           tx <- lift (get_prop innerParsed "transaction") ;;
           if truthy_opt tx then set_transactionData innerParsed
           else mret tt)
          (fun _ => mret tt)
    else mret tt
  else mret tt.

(** [output != null ? (typeof output === "string" ? output
                                                  : JSON.stringify(output))
                    : ""] *)
Definition result_string (out : option json) : string :=
  match out with
  | None => ""
  | Some JNull => ""
  | Some (JStr s) => s
  | Some v => JSON_stringify v
  end.

(** The body of [for (const contentItem of step.content)] from the test
    for an error string on, for a non-empty [resultStr]; a [continue] is
    the end of the body. *)
Definition scan_result_string (resultStr : string) : M unit :=
  if startsWith resultStr "Error:"
     || startsWith resultStr "Error executing"
  then set_toolError resultStr
  else
    mtry
      (parsed <- lift (parse_or_throw resultStr) ;;
       tx <- lift (get_prop parsed "transaction") ;;
       if truthy_opt tx then set_transactionData parsed
       else
         match parsed with
         | JArr items => for_each items scan_legacy_item
         | _ => mret tt
         end)
      (fun _ =>
         if includes resultStr "Error" then set_toolError resultStr
         else mret tt).

(** The body of [for (const contentItem of step.content)]. *)
Definition scan_content_part (contentItem : ContentPart) : M unit :=
  if String.eqb (part_type contentItem) "tool-result" then
    let resultStr := result_string (output contentItem) in
    if negb (truthy_str resultStr) then mret tt
    else scan_result_string resultStr
  else mret tt.

(** The body of [for (const step of result.steps)]. *)
Definition scan_step (step : Step) : M unit :=
  match step_content step with
  | Some parts => for_each parts scan_content_part
  | None => mret tt
  end.

Definition scan_steps (steps : list Step) : M unit :=
  for_each steps scan_step.

(** [result.steps?.some((s) => s.toolCalls && s.toolCalls.length > 0)] *)
Definition hadToolCalls (steps : list Step) : bool :=
  existsb
    (fun s =>
       match toolCalls s with
       | Some calls => Nat.ltb 0 (length calls)
       | None => false
       end)
    steps.

(** One [tr] of [step.toolResults]: the new value of [toolResultText]. *)
Definition tool_result_text_step (toolResultText : string)
  (tr : ToolResultEntry) : string :=
  match tr_result tr with
  | Some v =>
      if truthy v then
        let rStr := match v with JStr s => s | _ => JSON_stringify v end in
        if truthy_str rStr && Nat.ltb 0 (String.length rStr) then rStr
        else toolResultText
      else toolResultText
  | None => toolResultText
  end.

(** [toolResultText] after the two nested loops. *)
Definition tool_result_text (steps : list Step) : string :=
  fold_left
    (fun acc step =>
       match toolResults step with
       | Some trs => fold_left tool_result_text_step trs acc
       | None => acc
       end)
    steps "".

Definition announce (payload : json) : string :=
  "I've prepared the transaction to create your token. Please sign it to complete the process."
  ++ nl ++ nl ++ "```json" ++ nl
  ++ JSON_stringify_indent2 payload ++ nl ++ "```".

Definition no_data_notice : string :=
  "I processed your request but the tool didn't return any data. Please try again.".

(** The [if (!content && transactionData) ... else if ...] chain: the new
    value of [content]. *)
Definition synthesize (content0 : string) (st : scan_state)
  (steps : list Step) : string :=
  if negb (truthy_str content0) && truthy_opt (transactionData st) then
    match transactionData st with
    | Some payload => announce payload
    | None => content0
    end
  else if negb (truthy_str content0) && truthy_opt_str (toolError st) then
    match toolError st with
    | Some e => "There was an issue: " ++ e
    | None => content0
    end
  else if negb (truthy_str content0) then
    if hadToolCalls steps then
      let toolResultText := tool_result_text steps in
      if truthy_str toolResultText then "Tool result: " ++ toolResultText
      else no_data_notice
    else content0
  else content0.

(** [try { transactionData = JSON.parse(m[1]); } catch {}] *)
Definition parse_capture (cap : string) (transactionData0 : option json)
  : option json :=
  match parse_or_throw cap with
  | Ret v => Some v
  | Throw _ => transactionData0
  end.

(** [if (!transactionData && content) { ... }]: the new value of
    [transactionData]. *)
Definition scan_final_text (transactionData0 : option json)
  (content1 : string) : option json :=
  if negb (truthy_opt transactionData0) && truthy_str content1 then
    match String_match content1 re_fenced with
    | Some cap => parse_capture cap transactionData0
    | None =>
        match String_match content1 re_bare with
        | Some cap => parse_capture cap transactionData0
        | None => transactionData0
        end
    end
  else transactionData0.

(** [inferredToolName] *)
Definition infer_tool_name (transactionData1 : option json)
  : outcome string :=
  match transactionData1 with
  | Some payload =>
      if truthy payload then
        obind (get_prop payload "baseMint") (fun baseMint =>
        if negb (truthy_opt baseMint) then Ret "swap"
        else Ret "create_genesis_account")
      else Ret "create_genesis_account"
  | None => Ret "create_genesis_account"
  end.

(** The object given to [NextResponse.json]. *)
Definition build_reply (transactionData1 : option json)
  (content1 inferredToolName : string) : ChatReply :=
  match transactionData1 with
  | Some payload =>
      if truthy payload then
        mkReply "tool_result" content1 (Some inferredToolName)
          (Some (mkEnvelope
                   [mkContentItem "text" (Some (JSON_stringify payload))]))
      else mkReply "text" content1 None None
  | None => mkReply "text" content1 None None
  end.

(** Everything after [await generateText(...)]. *)
Definition respond (result : GenResult) : outcome ChatReply :=
  let content0 := text result in
  let (scan_outcome, st) := scan_steps (steps result) scan_init in
  obind scan_outcome (fun _ =>
  let content1 := synthesize content0 st (steps result) in
  let transactionData1 := scan_final_text (transactionData st) content1 in
  obind (infer_tool_name transactionData1) (fun inferredToolName =>
  Ret (build_reply transactionData1 content1 inferredToolName))).

(** The handler.  [generated] is what the part of the [try] block up to
    and including [await generateText(...)] comes to: the model run's
    result, or the exception thrown by the body parsing, the tool listing or
    the model provider. *)
Definition POST (generated : outcome GenResult) : http_response :=
  match obind generated respond with
  | Ret body => Http200 body
  | Throw error => Http500 "Internal Server Error" (message error)
  end.

End Handler.

(* ------------------------------------------------------------------ *)
(** ** An executable runtime

    A reference implementation of the built-ins on which the handler can be
    run: a recursive-descent JSON parser, the two serialisers and a
    backtracking matcher for the regular expressions above.  It covers JSON
    with integer numbers and [\u] escapes below 128, and takes the ASCII
    white space for [\s]; a duplicate key keeps its first position and its
    last value, as [JSON.parse] does. *)

Module RefRuntime.

Definition is_json_ws (c : ascii) : bool :=
  let n := nat_of_ascii c in
  Nat.eqb n 32 || Nat.eqb n 9 || Nat.eqb n 10 || Nat.eqb n 13.

Fixpoint skip_ws (s : string) : string :=
  match s with
  | String c r => if is_json_ws c then skip_ws r else s
  | EmptyString => s
  end.

Definition digit_val (c : ascii) : option Z :=
  let n := nat_of_ascii c in
  if Nat.leb 48 n && Nat.leb n 57 then Some (Z.of_nat (n - 48)) else None.

Definition is_digit (c : ascii) : bool :=
  match digit_val c with Some _ => true | None => false end.

Fixpoint read_digits (s : string) (acc : Z) : Z * string :=
  match s with
  | String c r =>
      match digit_val c with
      | Some d => read_digits r (10 * acc + d)
      | None => (acc, s)
      end
  | EmptyString => (acc, s)
  end.

(** What may not follow the integer part: a further digit after a leading
    zero, or a fraction or exponent. *)
Definition number_goes_on (s : string) : bool :=
  match s with
  | String c _ =>
      is_digit c || Ascii.eqb c "." || Ascii.eqb c "e" || Ascii.eqb c "E"
  | EmptyString => false
  end.

Definition parse_unsigned (s : string) : option (Z * string) :=
  match s with
  | String c r =>
      match digit_val c with
      | Some d =>
          let (n, rest) := if Z.eqb d 0 then (0%Z, r) else read_digits r d in
          if number_goes_on rest then None else Some (n, rest)
      | None => None
      end
  | EmptyString => None
  end.

(** What follows the character [c] when [s] begins with it. *)
Definition after_char (c : ascii) (s : string) : option string :=
  match s with
  | String c' r => if Ascii.eqb c' c then Some r else None
  | EmptyString => None
  end.

Definition parse_number (s : string) : option (json * string) :=
  match after_char "-" s with
  | Some r =>
      match parse_unsigned r with
      | Some (n, rest) => Some (JNum (- n), rest)
      | None => None
      end
  | None =>
      match parse_unsigned s with
      | Some (n, rest) => Some (JNum n, rest)
      | None => None
      end
  end.

Definition hex_val (c : ascii) : option nat :=
  let n := nat_of_ascii c in
  if Nat.leb 48 n && Nat.leb n 57 then Some (n - 48)
  else if Nat.leb 97 n && Nat.leb n 102 then Some (n - 87)
  else if Nat.leb 65 n && Nat.leb n 70 then Some (n - 55)
  else None.

Definition hex4 (a b c d : ascii) : option nat :=
  match hex_val a, hex_val b, hex_val c, hex_val d with
  | Some x, Some y, Some z, Some w => Some (((x * 16 + y) * 16 + z) * 16 + w)
  | _, _, _, _ => None
  end.

(** The character a two-character escape stands for. *)
Definition unescape (e : ascii) : option ascii :=
  match e with
  | "034" => Some "034"
  | "\" => Some "\"
  | "/" => Some "/"
  | "b" => Some "008"
  | "f" => Some "012"
  | "n" => Some "010"
  | "r" => Some "013"
  | "t" => Some "009"
  | _ => None
  end%char.

Definition cons_char (c : ascii) (r : option (string * string))
  : option (string * string) :=
  match r with
  | Some (body, rest) => Some (String c body, rest)
  | None => None
  end.

(** The characters of a string literal after its opening quote, and what
    follows the closing quote. *)
Fixpoint parse_chars (s : string) : option (string * string) :=
  match s with
  | EmptyString => None
  | String c r =>
      if Ascii.eqb c "034" then Some (EmptyString, r)
      else if Ascii.eqb c "\" then
        match r with
        | String e r' =>
            match unescape e with
            | Some ch => cons_char ch (parse_chars r')
            | None =>
                if Ascii.eqb e "u" then
                  match r' with
                  | String h1 (String h2 (String h3 (String h4 r''))) =>
                      match hex4 h1 h2 h3 h4 with
                      | Some code =>
                          if Nat.ltb code 128
                          then cons_char (ascii_of_nat code) (parse_chars r'')
                          else None
                      | None => None
                      end
                  | _ => None
                  end
                else None
            end
        | EmptyString => None
        end
      else if Nat.ltb (nat_of_ascii c) 32 then None
      else cons_char c (parse_chars r)
  end.

(** [o[k] = v] on a field list. *)
Fixpoint obj_set (k : string) (v : json) (fields : list (string * json))
  : list (string * json) :=
  match fields with
  | [] => [(k, v)]
  | (k', v') :: rest =>
      if String.eqb k k' then (k', v) :: rest
      else (k', v') :: obj_set k v rest
  end.

Fixpoint strip_prefix (lit s : string) : option string :=
  match lit, s with
  | EmptyString, _ => Some s
  | String a lit', String b s' =>
      if Ascii.eqb a b then strip_prefix lit' s' else None
  | String _ _, EmptyString => None
  end.

(** The literal [lit], standing for [v]. *)
Definition expect (lit : string) (v : json) (s : string)
  : option (json * string) :=
  match strip_prefix lit s with
  | Some rest => Some (v, rest)
  | None => None
  end.

Fixpoint parse_value (fuel : nat) (s : string) : option (json * string) :=
  match fuel with
  | O => None
  | S fuel' =>
      match skip_ws s with
      | EmptyString => None
      | String c r =>
          if Ascii.eqb c "n" then expect "null" JNull (String c r)
          else if Ascii.eqb c "t" then expect "true" (JBool true) (String c r)
          else if Ascii.eqb c "f" then expect "false" (JBool false) (String c r)
          else if Ascii.eqb c "034" then
            match parse_chars r with
            | Some (body, rest) => Some (JStr body, rest)
            | None => None
            end
          else if Ascii.eqb c "[" then
            match after_char "]" (skip_ws r) with
            | Some rest => Some (JArr [], rest)
            | None => parse_elements fuel' r []
            end
          else if Ascii.eqb c "{" then
            match after_char "}" (skip_ws r) with
            | Some rest => Some (JObj [], rest)
            | None => parse_members fuel' r []
            end
          else parse_number (String c r)
      end
  end

(** The elements of an array from an element on; [acc] holds the ones
    read so far. *)
with parse_elements (fuel : nat) (s : string) (acc : list json)
  : option (json * string) :=
  match fuel with
  | O => None
  | S fuel' =>
      match parse_value fuel' s with
      | Some (v, rest) =>
          match after_char "," (skip_ws rest) with
          | Some rest' => parse_elements fuel' rest' (acc ++ [v])%list
          | None =>
              match after_char "]" (skip_ws rest) with
              | Some rest' => Some (JArr (acc ++ [v])%list, rest')
              | None => None
              end
          end
      | None => None
      end
  end

(** The members of an object from a key on. *)
with parse_members (fuel : nat) (s : string) (acc : list (string * json))
  : option (json * string) :=
  match fuel with
  | O => None
  | S fuel' =>
      match after_char "034" (skip_ws s) with
      | Some r =>
          match parse_chars r with
          | Some (k, rest) =>
              match after_char ":" (skip_ws rest) with
              | Some rest1 =>
                  match parse_value fuel' rest1 with
                  | Some (v, rest2) =>
                      match after_char "," (skip_ws rest2) with
                      | Some rest3 =>
                          parse_members fuel' rest3 (obj_set k v acc)
                      | None =>
                          match after_char "}" (skip_ws rest2) with
                          | Some rest3 => Some (JObj (obj_set k v acc), rest3)
                          | None => None
                          end
                      end
                  | None => None
                  end
              | None => None
              end
          | None => None
          end
      | None => None
      end
  end.

Definition parse (s : string) : option json :=
  match parse_value (2 * String.length s + 2) s with
  | Some (v, rest) =>
      match skip_ws rest with
      | EmptyString => Some v
      | String _ _ => None
      end
  | None => None
  end.

Definition hex_digit (n : nat) : ascii :=
  if Nat.ltb n 10 then ascii_of_nat (48 + n) else ascii_of_nat (87 + n).

(** How [JSON.stringify] writes one character of a string. *)
Definition escape_char (c : ascii) : string :=
  match c with
  | "034"%char => String "\" dquote
  | "\"%char => "\\"
  | "008"%char => "\b"
  | "012"%char => "\f"
  | "010"%char => "\n"
  | "013"%char => "\r"
  | "009"%char => "\t"
  | _ =>
      let n := nat_of_ascii c in
      if Nat.ltb n 32
      then "\u00" ++ String (hex_digit (n / 16))
                       (String (hex_digit (n mod 16)) "")
      else String c ""
  end.

Fixpoint escape (s : string) : string :=
  match s with
  | EmptyString => EmptyString
  | String c r => escape_char c ++ escape r
  end.

Definition quote (s : string) : string := dquote ++ escape s ++ dquote.

Definition show_Z (n : Z) : string := NilZero.string_of_int (Z.to_int n).

Fixpoint stringify (v : json) : string :=
  match v with
  | JNull => "null"
  | JBool true => "true"
  | JBool false => "false"
  | JNum n => show_Z n
  | JStr s => quote s
  | JArr items => "[" ++ join "," (map stringify items) ++ "]"
  | JObj fields =>
      "{" ++ join ","
               (map (fun kv : string * json => let (k, x) := kv in
                               quote k ++ ":" ++ stringify x) fields)
          ++ "}"
  end.

(** [JSON.stringify(v, null, 2)] at indentation [ind]. *)
Fixpoint stringify_indent (v : json) (ind : string) : string :=
  match v with
  | JArr [] => "[]"
  | JArr items =>
      "[" ++ nl
      ++ join ("," ++ nl)
           (map (fun x => ind ++ "  " ++ stringify_indent x (ind ++ "  "))
              items)
      ++ nl ++ ind ++ "]"
  | JObj [] => "{}"
  | JObj fields =>
      "{" ++ nl
      ++ join ("," ++ nl)
           (map (fun kv : string * json => let (k, x) := kv in
                           ind ++ "  " ++ quote k ++ ": "
                           ++ stringify_indent x (ind ++ "  "))
              fields)
      ++ nl ++ ind ++ "}"
  | _ => stringify v
  end.

(** *** Matching *)

Definition in_class (c : char_class) (ch : ascii) : bool :=
  match c with
  | AnyChar => true
  | WhiteSpace =>
      let n := nat_of_ascii ch in
      Nat.eqb n 32 || (Nat.leb 9 n && Nat.leb n 13)
  end.

(** Capture group 1 during a match. *)
Inductive capture : Type :=
| NotOpen
| Open (so_far : string)
| Closed (txt : string).

Definition push (cap : capture) (s : string) : capture :=
  match cap with
  | Open so_far => Open (so_far ++ s)
  | _ => cap
  end.

Definition close (cap : capture) : capture :=
  match cap with
  | Open so_far => Closed so_far
  | _ => cap
  end.

Definition captured (cap : capture) : string :=
  match cap with
  | Closed txt => txt
  | _ => ""
  end.

(** A backtracking match of [r] at the start of [s]. *)
Fixpoint match_here (r : regex) (s : string) (cap : capture) {struct r}
  : option string :=
  match r with
  | [] => Some (captured cap)
  | Chars lit :: r' =>
      match strip_prefix lit s with
      | Some s' => match_here r' s' (push cap lit)
      | None => None
      end
  | GroupOpen :: r' => match_here r' s (Open "")
  | GroupClose :: r' => match_here r' s (close cap)
  | Star c :: r' =>
      (fix star (s : string) (cap : capture) {struct s} : option string :=
         match s with
         | String ch s' =>
             if in_class c ch then
               match star s' (push cap (String ch "")) with
               | Some m => Some m
               | None => match_here r' s cap
               end
             else match_here r' s cap
         | EmptyString => match_here r' s cap
         end) s cap
  | LazyStar c :: r' =>
      (fix lazy (s : string) (cap : capture) {struct s} : option string :=
         match match_here r' s cap with
         | Some m => Some m
         | None =>
             match s with
             | String ch s' =>
                 if in_class c ch then lazy s' (push cap (String ch ""))
                 else None
             | EmptyString => None
             end
         end) s cap
  end.

(** The leftmost match. *)
Fixpoint search (r : regex) (s : string) : option string :=
  match match_here r s NotOpen with
  | Some m => Some m
  | None =>
      match s with
      | String _ s' => search r s'
      | EmptyString => None
      end
  end.

Definition runtime : JSRuntime := {|
  JSON_parse := parse;
  JSON_stringify := stringify;
  JSON_stringify_indent2 := fun v => stringify_indent v "";
  String_match := fun s r => search r s
|}.

End RefRuntime.

(* ------------------------------------------------------------------ *)
(** ** Notions used in the statements *)

(** The state a computation leaves behind. *)
Definition exec {A} (m : M A) (st : scan_state) : scan_state := snd (m st).

(** Own field [k] of an object; [None] for any other value. *)
Definition field (v : json) (k : string) : option json :=
  match v with
  | JObj fields => lookup k fields
  | _ => None
  end.

(** The value has an own key [k], whatever it holds. *)
Definition has_key (v : json) (k : string) : bool :=
  match field v k with
  | Some _ => true
  | None => false
  end.

(** [v.k] is truthy. *)
Definition truthy_field (v : json) (k : string) : bool :=
  truthy_opt (field v k).

(** The single-item envelope the reply wraps a payload in. *)
Definition wrap (txt : string) : ResultEnvelope :=
  mkEnvelope [mkContentItem "text" (Some txt)].

Section Notions.
Context {rt : JSRuntime}.

(** The non-empty [resultStr] values the scan gets from the parts of one
    step, in order. *)
Definition part_result_strings (parts : list ContentPart) : list string :=
  flat_map
    (fun p =>
       if String.eqb (part_type p) "tool-result" then
         let s := result_string (output p) in
         if truthy_str s then [s] else []
       else [])
    parts.

(** The same for a step history. *)
Definition result_strings (steps : list Step) : list string :=
  flat_map
    (fun s =>
       match step_content s with
       | Some parts => part_result_strings parts
       | None => []
       end)
    steps.

(** The scan of a list of result strings. *)
Definition scan_strings (strs : list string) (st : scan_state) : scan_state :=
  fold_left (fun acc s => exec (scan_result_string s) acc) strs st.

(** The payload one result string assigns, if any. *)
Definition payload_of (s : string) : option json :=
  transactionData (exec (scan_result_string s) scan_init).

(** The payload after the strings [strs], from payload [p] on: each string
    that assigns one overwrites it. *)
Definition overwritten (p : json) (strs : list string) : json :=
  fold_left
    (fun acc s => match payload_of s with Some q => q | None => acc end)
    strs p.

(** The state after the step-history scan. *)
Definition scanned (result : GenResult) : scan_state :=
  exec (scan_steps (steps result)) scan_init.

(** [content] when the reply is built. *)
Definition final_content (result : GenResult) : string :=
  synthesize (text result) (scanned result) (steps result).

(** [transactionData] when the reply is built. *)
Definition extracted (result : GenResult) : option json :=
  scan_final_text (transactionData (scanned result)) (final_content result).

(** The tool name the reply gives for a payload. *)
Definition tool_label (payload : json) : string :=
  if truthy_field payload "baseMint" then "create_genesis_account"
  else "swap".

(** The reply for a payload and a content. *)
Definition payload_reply (payload : json) (content1 : string) : ChatReply :=
  mkReply "tool_result" content1 (Some (tool_label payload))
    (Some (wrap (JSON_stringify payload))).

(** The reply without a payload. *)
Definition text_reply (content1 : string) : ChatReply :=
  mkReply "text" content1 None None.

(** The result texts the executor joins. *)
Definition result_texts (result : ToolResult) : list string :=
  match content result with
  | Some items => texts_of items
  | None => []
  end.

(** A result string with one of the two error markers. *)
Definition error_marked (s : string) : bool :=
  startsWith s "Error:" || startsWith s "Error executing".

End Notions.


(* ------------------------------------------------------------------ *)
(** ** Notions used in the proofs *)

(** A computation never throws. *)
Definition returns {A} (m : M A) : Prop :=
  forall st, exists a, fst (m st) = Ret a.

(** The update a computation makes: [Some] overwrites, [None] keeps. *)
Definition upd (u : option json) (ue : option string) (st : scan_state)
  : scan_state :=
  mkScan (match u with Some v => Some v | None => transactionData st end)
         (match ue with Some e => Some e | None => toolError st end).

(** What the scan may assign to [transactionData]: an object whose
    [transaction] is truthy. *)
Definition good_payload (p : json) : Prop :=
  exists tx, field p "transaction" = Some tx /\ truthy tx = true.

(** A computation that never reads the two variables: its outcome and what
    it assigns do not depend on the state, and it assigns only good payloads
    and non-empty errors. *)
Definition writer {A} (m : M A) : Prop :=
  exists o u ue,
    (forall st, m st = (o, upd u ue st)) /\
    (forall p, u = Some p -> good_payload p) /\
    (forall e, ue = Some e -> truthy_str e = true).

(** The invariant of the scan's state. *)
Definition state_ok (st : scan_state) : Prop :=
  (forall p, transactionData st = Some p -> good_payload p) /\
  (forall e, toolError st = Some e -> truthy_str e = true).

(** Following the spec's words: a scan that stops at the first result
    string that yields a payload. *)
Fixpoint scan_stopping {rt : JSRuntime} (strs : list string)
  (st : scan_state) : scan_state :=
  match strs with
  | [] => st
  | s :: rest =>
      let st' := exec (scan_result_string s) st in
      match payload_of s with
      | Some _ => st'
      | None => scan_stopping rest st'
      end
  end.

(** *** Values of the executable runtime *)

(** Nodes of a value, list cells included: the fuel its text needs. *)
Fixpoint size (v : json) : nat :=
  match v with
  | JArr items => S (fold_right (fun x n => S (size x + n)) 0 items)
  | JObj fields =>
      S (fold_right
           (fun (kv : string * json) n => let (_, x) := kv in S (size x + n))
           0 fields)
  | _ => 1
  end.

Definition size_items (items : list json) : nat :=
  fold_right (fun x n => S (size x + n)) 0 items.

Definition size_fields (fields : list (string * json)) : nat :=
  fold_right (fun (kv : string * json) n => let (_, x) := kv in S (size x + n))
    0 fields.

(** No object of the value has a key twice: what the parser produces. *)
Fixpoint wf (v : json) : Prop :=
  match v with
  | JArr items => fold_right (fun x P => wf x /\ P) True items
  | JObj fields =>
      NoDup (map fst fields)
      /\ fold_right
           (fun (kv : string * json) P => (let (_, x) := kv in wf x) /\ P)
           True fields
  | _ => True
  end.

Definition wf_items (items : list json) : Prop :=
  fold_right (fun x P => wf x /\ P) True items.

Definition wf_fields (fields : list (string * json)) : Prop :=
  fold_right (fun (kv : string * json) P => (let (_, x) := kv in wf x) /\ P)
    True fields.

(** The text of the elements of an array and of the members of an object,
    as [RefRuntime.stringify] writes them. *)
Definition elems_text (items : list json) : string :=
  join "," (map RefRuntime.stringify items).

Definition member_text (kv : string * json) : string :=
  let (k, x) := kv in
  RefRuntime.quote k ++ ":" ++ RefRuntime.stringify x.

Definition members_text (fields : list (string * json)) : string :=
  join "," (map member_text fields).

(** Induction on a value with the hypothesis for every element of an array
    and every member of an object. *)
Section JsonInduction.
Variable P : json -> Prop.
Hypothesis P_null : P JNull.
Hypothesis P_bool : forall b, P (JBool b).
Hypothesis P_num : forall n, P (JNum n).
Hypothesis P_str : forall s, P (JStr s).
Hypothesis P_arr : forall items, Forall P items -> P (JArr items).
Hypothesis P_obj :
  forall fields, Forall (fun kv => P (snd kv)) fields -> P (JObj fields).

Fixpoint json_nested_ind (v : json) : P v :=
  match v with
  | JNull => P_null
  | JBool b => P_bool b
  | JNum n => P_num n
  | JStr s => P_str s
  | JArr items =>
      P_arr items
        ((fix all (l : list json) : Forall P l :=
            match l with
            | [] => Forall_nil P
            | x :: l' => Forall_cons x (json_nested_ind x) (all l')
            end) items)
  | JObj fields =>
      P_obj fields
        ((fix all (l : list (string * json))
            : Forall (fun kv => P (snd kv)) l :=
            match l with
            | [] => Forall_nil _
            | kv :: l' =>
                Forall_cons kv
                  (match kv as p return P (snd p) with
                   | (_, x) => json_nested_ind x
                   end)
                  (all l')
            end) fields)
  end.
End JsonInduction.

(* ------------------------------------------------------------------ *)
(** ** Sample inputs *)

(** A step of the model run with one tool call whose result is the string
    [s]. *)
Definition tool_step (s : string) : Step :=
  mkStep
    (Some [mkContentPart "tool-call" None;
           mkContentPart "tool-result" (Some (JStr s))])
    (Some [mkToolCall "execute_mcp_tool" JNull])
    (Some [mkToolResultEntry None]).

(** [{"transaction":"<b64>"}] *)
Definition payload_text (b64 : string) : string :=
  "{" ++ quoted "transaction" ++ ":" ++ quoted b64 ++ "}".


(** [{"transaction":"AAA","baseMint":null}] *)
Definition null_mint_text : string :=
  "{" ++ quoted "transaction" ++ ":" ++ quoted "AAA" ++ ","
  ++ quoted "baseMint" ++ ":null}".

(** [{"transaction":"AAA","baseMint":"Mint111"}] *)
Definition mint_text : string :=
  "{" ++ quoted "transaction" ++ ":" ++ quoted "AAA" ++ ","
  ++ quoted "baseMint" ++ ":" ++ quoted "Mint111" ++ "}".

(** [{"transaction": oops}] *)
Definition broken_text : string :=
  "{" ++ quoted "transaction" ++ ": oops}".

(** A fenced block of the given body. *)
Definition fenced (body : string) : string :=
  "```json" ++ nl ++ body ++ nl ++ "```".



(** Two payloads. *)
Definition c2_run : GenResult :=
  mkGenResult ""
    [tool_step (payload_text "AAA"); tool_step (payload_text "BBB")].

(** A bridge whose every call reports an error with a message. *)
Definition erroring_client : McpClient :=
  {| client_callTool := fun _ _ =>
       Ret (mkToolResult
              (Some [mkContentItem "text" (Some "insufficient funds")]) true) |}.

(** A bridge whose every call returns two text fragments. *)
Definition two_text_client : McpClient :=
  {| client_callTool := fun _ _ =>
       Ret (mkToolResult
              (Some [mkContentItem "text" (Some "Built.");
                     mkContentItem "image" None;
                     mkContentItem "text" (Some (payload_text "AAA"))])
              false) |}.


(** A bridge that rejects every call. *)
Definition down_client : McpClient :=
  {| client_callTool := fun _ _ => Throw (Error "connection closed") |}.




Definition c5_run : GenResult :=
  mkGenResult "Done." [tool_step (payload_text "AAA")].

Definition c7_run_null : GenResult :=
  mkGenResult "Please sign." [tool_step null_mint_text].

Definition c7_run : GenResult :=
  mkGenResult "Please sign." [tool_step mint_text].


(** A bare object that parses first, a fenced block that does not parse
    after it. *)
Definition c10_run : GenResult :=
  mkGenResult (payload_text "AAA" ++ " " ++ fenced broken_text) [].

(** A tool result in the old MCP format: an array of content items whose
    text is a serialised payload. *)
Definition legacy_payload_text : string :=
  RefRuntime.stringify
    (JArr [JObj [("type", JStr "text"); ("text", JStr (payload_text "AAA"))]]).

(** The old format with an error item, then [null], then a payload. *)
Definition legacy_null_item_text : string :=
  RefRuntime.stringify
    (JArr [JObj [("type", JStr "text"); ("text", JStr "Error: no funds")];
           JNull;
           JObj [("type", JStr "text"); ("text", JStr (payload_text "AAA"))]]).

(** The old format with a payload, then an item whose text is a number. *)
Definition legacy_number_text : string :=
  RefRuntime.stringify
    (JArr [JObj [("type", JStr "text"); ("text", JStr (payload_text "AAA"))];
           JObj [("type", JStr "text"); ("text", JNum 5)]]).



(* ------------------------------------------------------------------ *)
(** ** Notions for further properties of the scan *)

(** The payloads a computation may assign: whatever it leaves in
    [transactionData] was there before or satisfies [G]. *)
Definition assigns_only {A} (G : json -> Prop) (m : M A) : Prop :=
  forall st p,
    transactionData (snd (m st)) = Some p ->
    transactionData st = Some p \/ G p.

(** An item of the old MCP format on which the loop body does not throw:
    it is not [null], and its [text], when the item is of type ["text"]
    and the text is truthy, is a string. *)
Definition item_ok (item : json) : bool :=
  match item with
  | JNull => false
  | _ =>
      negb (strict_eq_str (field item "type") "text")
      || negb (truthy_opt (field item "text"))
      || match field item "text" with
         | Some (JStr _) => true
         | _ => false
         end
  end.

(** The text the loop body looks at in an item; [""] when it skips the
    item. *)
Definition legacy_text (item : json) : string :=
  if strict_eq_str (field item "type") "text" then
    match field item "text" with
    | Some (JStr t) => t
    | _ => ""
    end
  else "".

Section LegacyNotions.
Context {rt : JSRuntime}.

(** What the loop body does with the text of an item. *)
Definition legacy_effect (st : scan_state) (t : string) : scan_state :=
  if truthy_str t then
    if startsWith t "Error:" then mkScan (transactionData st) (Some t)
    else
      match JSON_parse t with
      | Some v =>
          if truthy_field v "transaction"
          then mkScan (Some v) (toolError st)
          else st
      | None => st
      end
  else st.

(** [p] comes from the result string [s]: it is what [s] parses to, or
    what the text of an item of the array [s] parses to. *)
Definition from_result (s : string) (p : json) : Prop :=
  JSON_parse s = Some p
  \/ exists items item t,
       JSON_parse s = Some (JArr items)
       /\ In item items
       /\ field item "text" = Some (JStr t)
       /\ JSON_parse t = Some p.

(** [p] comes from the content [c]: it is what a capture of one of the two
    patterns parses to. *)
Definition from_content (c : string) (p : json) : Prop :=
  exists cap,
    (String_match c re_fenced = Some cap \/ String_match c re_bare = Some cap)
    /\ JSON_parse cap = Some p.

End LegacyNotions.

(* ------------------------------------------------------------------ *)
(** ** Module state

    A computation that reads and assigns the variables of a module or of a
    component and may throw; as with [M], what it assigned before a throw
    stays assigned. *)

Definition ST (S A : Type) : Type := S -> outcome A * S.

Definition st_ret {S A} (a : A) : ST S A := fun s => (Ret a, s).

Definition st_bind {S A B} (m : ST S A) (k : A -> ST S B) : ST S B :=
  fun s =>
    match m s with
    | (Ret a, s') => k a s'
    | (Throw e, s') => (Throw e, s')
    end.

Definition st_lift {S A} (o : outcome A) : ST S A := fun s => (o, s).

(** [try { m } catch (e) { h e }] *)
Definition st_try {S A} (m : ST S A) (h : exn -> ST S A) : ST S A :=
  fun s =>
    match m s with
    | (Ret a, s') => (Ret a, s')
    | (Throw e, s') => h e s'
    end.

(** [try { m } finally { f }] *)
Definition st_finally {S A} (m : ST S A) (f : ST S unit) : ST S A :=
  fun s =>
    let (o, s') := m s in
    match f s' with
    | (Ret _, s'') => (o, s'')
    | (Throw e, s'') => (Throw e, s'')
    end.

Notation "x <~ m ;; k" := (st_bind m (fun x => k))
  (at level 100, m at next level, right associativity) : js_scope.

(** [String(v)] of a JSON value, as [JSON.parse] and a template literal
    apply it to an argument that is not a string. *)
Fixpoint ToString `{JSRuntime} (v : json) : string :=
  match v with
  | JNull => "null"
  | JBool true => "true"
  | JBool false => "false"
  | JNum n => JSON_stringify (JNum n)
  | JStr s => s
  | JArr items =>
      join ","
        (map (fun x => match x with JNull => "" | _ => ToString x end) items)
  | JObj _ => "[object Object]"
  end.

(** [`${v}`] of a string that may be [undefined]. *)
Definition template (v : option string) : string :=
  match v with
  | Some s => s
  | None => "undefined"
  end.

(* ------------------------------------------------------------------ *)
(** ** The tool bridge's module ([lib/mcp.ts]) *)

Module Bridge.

(** A tool as the server lists it; the protocol makes [description]
    optional. *)
Record Tool : Type := mkTool {
  name : string;
  description : option string;
  inputSchema : json
}.

(** A connected client, by the two methods the module calls:
    [client.callTool({ name, arguments })] and the [tools] of what
    [client.listTools()] resolves to. *)
Record Client : Type := mkClient {
  callTool : string -> json -> outcome ToolResult;
  listTools : outcome (list Tool)
}.

(** The claims' view of a connected client. *)
Definition client_of (client : Client) : McpClient :=
  {| client_callTool := callTool client |}.

Section Module_state.
Context {rt : JSRuntime}.
Local Open Scope js_scope.

(** [getMcpClient].  The module's state is its variable [mcpClient];
    [connect] is what resolving the server's path, creating transport and
    client and [await client.connect(transport)] come to at this call: the
    connected client, or the exception one of them throws. *)
Definition getMcpClient (connect : outcome Client)
  : ST (option Client) Client :=
  fun mcpClient =>
    match mcpClient with
    | Some client => (Ret client, mcpClient)
    | None =>
        match connect with
        | Ret client => (Ret client, Some client)
        | Throw e => (Throw e, mcpClient)
        end
    end.

Definition callMcpTool (connect : outcome Client) (name : string)
  (args : json) : ST (option Client) ToolResult :=
  client <~ getMcpClient connect ;;
  st_lift (callTool client name args).

Definition listMcpTools (connect : outcome Client)
  : ST (option Client) (list Tool) :=
  client <~ getMcpClient connect ;;
  st_lift (listTools client).

(** The template literal of [getToolsDescription] for one tool. *)
Definition describe (t : Tool) : string :=
  "Tool: " ++ name t ++ nl
  ++ "Description: " ++ template (description t) ++ nl
  ++ "Schema: " ++ JSON_stringify (inputSchema t) ++ nl.

Definition getToolsDescription (connect : outcome Client)
  : ST (option Client) string :=
  tools <~ listMcpTools connect ;;
  st_ret (join (nl ++ nl) (map describe tools)).

(** The bridge as the executor sees it when the module's variable holds
    [mcpClient]. *)
Definition bridge_client (connect : outcome Client)
  (mcpClient : option Client) : McpClient :=
  {| client_callTool :=
       fun name args => fst (callMcpTool connect name args mcpClient) |}.


End Module_state.

End Bridge.

(* ------------------------------------------------------------------ *)
(** ** The request handler from the request on ([POST]) *)

(** An element of [history] and of the [messages] given to the model. *)
Record ChatMessage : Type := mkChatMessage {
  role : string;
  msg_content : string
}.

(** What [RequestSchema.parse] returns. *)
Record Request : Type := mkRequest {
  req_message : string;
  req_history : option (list ChatMessage);
  req_walletAddress : option string
}.

(** The schema combinators the handler uses.  A schema reads a value that
    may be [undefined] and gives the parsed value, or [None] where [parse]
    throws a [ZodError]. *)
Definition z_string (v : option json) : option string :=
  match v with
  | Some (JStr s) => Some s
  | _ => None
  end.

Definition z_enum (values : list string) (v : option json) : option string :=
  match v with
  | Some (JStr s) => if existsb (String.eqb s) values then Some s else None
  | _ => None
  end.

Fixpoint all_parsed {A} (l : list (option A)) : option (list A) :=
  match l with
  | [] => Some []
  | Some a :: rest => option_map (cons a) (all_parsed rest)
  | None :: _ => None
  end.

Definition z_array {A} (element : option json -> option A)
  (v : option json) : option (list A) :=
  match v with
  | Some (JArr items) =>
      all_parsed (map (fun item => element (Some item)) items)
  | _ => None
  end.

Definition z_optional {A} (inner : option json -> option A)
  (v : option json) : option (option A) :=
  match v with
  | None => Some None
  | Some _ => option_map Some (inner v)
  end.

(** [z.object({ role: z.enum(["user", "assistant"]),
                content: z.string() })] *)
Definition MessageSchema (v : option json) : option ChatMessage :=
  match v with
  | Some (JObj fields) =>
      match z_enum ["user"; "assistant"] (lookup "role" fields),
            z_string (lookup "content" fields) with
      | Some r, Some c => Some (mkChatMessage r c)
      | _, _ => None
      end
  | _ => None
  end.

(** [z.object({ message: z.string(),
                history: z.array(MessageSchema).optional(),
                walletAddress: z.string().optional() })] *)
Definition RequestSchema (v : option json) : option Request :=
  match v with
  | Some (JObj fields) =>
      match z_string (lookup "message" fields),
            z_optional (z_array MessageSchema) (lookup "history" fields),
            z_optional z_string (lookup "walletAddress" fields) with
      | Some m, Some h, Some w => Some (mkRequest m h w)
      | _, _, _ => None
      end
  | _ => None
  end.

(** What the handler calls besides the bridge. *)
Class Services : Type := {
  (** The message of the [ZodError] that [RequestSchema.parse] throws for
      a body it rejects. *)
  ZodError_message : json -> string;
  (** [generateText({ model, system, messages, maxSteps: 5, tools })] for
      the system prompt, the messages and the [execute] of
      [execute_mcp_tool]. *)
  generateText :
    string -> list ChatMessage -> (string -> string -> outcome string)
    -> outcome GenResult
}.

(** The lines of the [system] template before [${toolsDesc}]. *)
Definition prompt_head : list string :=
  [
    "You are a friendly AI assistant for the Metaplex Genesis Protocol on Solana Devnet.";
    "You help users create tokens, fetch accounts, and interact with bonding curves.";
    EmptyString;
    "## Your Personality";
    "- Be concise and helpful";
    "- Don't overwhelm users with technical jargon";
    "- Guide them step-by-step when needed";
    EmptyString;
    "## Available Tools"
  ].

(** The lines between [${toolsDesc}] and [${walletContext}]. *)
Definition prompt_rules : list string :=
  [
    EmptyString;
    "## SIMPLIFIED TOKEN CREATION FLOW";
    "When a user wants to create a token, DON'T ask for all technical parameters upfront.";
    "Instead, follow this simplified flow:";
    EmptyString;
    "1. **Ask only for essentials**: Token name, symbol, and optionally total supply";
    "2. **Use sensible defaults**:";
    "   - totalSupplyBaseToken: " ++ dquote ++ "1000000000" ++ dquote ++ " (1 billion) if not specified";
    "   - uri: " ++ dquote ++ "https://arweave.net/placeholder" ++ dquote ++ " (placeholder metadata)";
    "   - fundingMode: " ++ dquote ++ "Mint" ++ dquote;
    "   - For baseMint, authority, and payer: Use the user's connected wallet address";
    EmptyString;
    "3. **Example simple flow**:";
    "   User: " ++ dquote ++ "I want to create a token" ++ dquote;
    "   You: " ++ dquote ++ "Great! Let's create your token. I just need a few things:";
    "   - **Name**: What's your token called?";
    "   - **Symbol**: Short ticker (e.g., SOL, USDC)";
    "   - **Supply** (optional): How many tokens? Default is 1 billion." ++ dquote;
    EmptyString;
    "4. **IMPORTANT: When user provides name and symbol, IMMEDIATELY call the tool.**";
    "   Don't say " ++ dquote ++ "Let's proceed" ++ dquote ++ " or ask for confirmation - just execute the tool right away!";
    "   If they haven't connected a wallet, ask them to connect first.";
    "    ";
    "    ## SIMPLIFIED TOKEN SWAP FLOW";
    "    When a user wants to swap tokens:";
    "    1. Ask for the bonding curve address (or token name/symbol to look it up), amount, and direction (Buy/Sell).";
    "    2. Call 'get_swap_quote' to get an estimated output.";
    "    3. Show the estimate to the user.";
    "    4. If they confirm, calculate 'minAmountOut' (e.g., 95% of estimated output for 5% slippage) and call the 'swap' tool.";
    "    5. Use the user's connected wallet address as the 'authority'.";
    EmptyString;
    "    ## Tool Execution";
    "    - Call 'execute_mcp_tool' with tool_name and arguments as a JSON string";
    "    - For create_genesis_account, the required fields are: baseMint, totalSupplyBaseToken, name, uri, symbol";
    "    - You MUST also provide 'authority' OR 'payer' (use the user's wallet address for both)";
    "    - IMPORTANT: For baseMint, ALWAYS use the literal string " ++ dquote ++ "generate" ++ dquote ++ " - this tells the server to generate a new keypair for the token mint";
    "    - ALWAYS execute the tool when you have enough information - don't wait for user confirmation";
    "    ";
    "    Example JSON for create_genesis_account:";
    "{";
    "  " ++ dquote ++ "baseMint" ++ dquote ++ ": " ++ dquote ++ "generate" ++ dquote ++ ",";
    "  " ++ dquote ++ "totalSupplyBaseToken" ++ dquote ++ ": " ++ dquote ++ "1000000000" ++ dquote ++ ",";
    "  " ++ dquote ++ "name" ++ dquote ++ ": " ++ dquote ++ "TokenName" ++ dquote ++ ",";
    "  " ++ dquote ++ "uri" ++ dquote ++ ": " ++ dquote ++ "https://arweave.net/placeholder" ++ dquote ++ ",";
    "  " ++ dquote ++ "symbol" ++ dquote ++ ": " ++ dquote ++ "TKN" ++ dquote ++ ",";
    "  " ++ dquote ++ "authority" ++ dquote ++ ": " ++ dquote ++ "<user_wallet_address>" ++ dquote ++ ",";
    "  " ++ dquote ++ "payer" ++ dquote ++ ": " ++ dquote ++ "<user_wallet_address>" ++ dquote;
    "}";
    EmptyString;
    "## Transaction Output";
    "If a tool returns a transaction with a " ++ dquote ++ "transaction" ++ dquote ++ " field containing base64, output it in a JSON block:";
    "```json";
    "{";
    "  " ++ dquote ++ "transaction" ++ dquote ++ ": " ++ dquote ++ "base64_string_here" ++ dquote ++ ",";
    "  " ++ dquote ++ "message" ++ dquote ++ ": " ++ dquote ++ "Sign this transaction to create your token!" ++ dquote;
    "}";
    "```";
    EmptyString;
    "## Help Command";
    "If user asks for " ++ dquote ++ "help" ++ dquote ++ ", list available actions in simple terms:";
    "- Create a new token";
    "- Look up existing Genesis accounts";
    "- Check bonding curve prices";
    "- Swap tokens (Buy/Sell)";
    "- Get swap quotes"
  ].

Section Request.
Context {rt : JSRuntime} {sv : Services}.
Local Open Scope js_scope.

(** [RequestSchema.parse(body)] *)
Definition RequestSchema_parse (body : json) : outcome Request :=
  match RequestSchema (Some body) with
  | Some request => Ret request
  | None => Throw (Error (ZodError_message body))
  end.

Definition walletContext (walletAddress : option string) : string :=
  if truthy_opt_str walletAddress then
    nl ++ nl ++ "## User's Connected Wallet" ++ nl
    ++ "The user has connected their wallet: " ++ template walletAddress
    ++ nl
    ++ "Use this address for baseMint, authority, and payer when creating tokens."
  else
    nl ++ nl ++ "## Wallet Status" ++ nl
    ++ "The user has NOT connected a wallet yet. If they want to create a token, remind them to connect their wallet first using the button in the top-right corner.".

(** The [messages] array: the history, if there is one and it is not
    empty, pushed message by message, then the current message. *)
Definition build_messages (message : string)
  (history : option (list ChatMessage)) : list ChatMessage :=
  let messages :=
    match history with
    | Some h =>
        if Nat.ltb 0 (length h) then
          fold_left
            (fun messages msg =>
               (messages ++ [mkChatMessage (role msg) (msg_content msg)])%list)
            h []
        else []
    | None => []
    end in
  (messages ++ [mkChatMessage "user" message])%list.

(** The [system] template. *)
Definition system_prompt (toolsDesc walletContext : string) : string :=
  join nl
    (prompt_head ++ [toolsDesc] ++ prompt_rules ++ [walletContext; ""])%list.

(** The [try] block up to and including [await generateText(...)].
    [body] is what [await req.json()] comes to.  When the model runs, the
    tool listing has returned, so that the module's variable holds a
    client: the tool calls of the run find it there. *)
Definition generate (connect : outcome Bridge.Client) (body : outcome json)
  : ST (option Bridge.Client) GenResult :=
  body <~ st_lift body ;;
  request <~ st_lift (RequestSchema_parse body) ;;
  toolsDesc <~ Bridge.getToolsDescription connect ;;
  let walletContext := walletContext (req_walletAddress request) in
  let messages :=
    build_messages (req_message request) (req_history request) in
  fun mcpClient =>
    (generateText (system_prompt toolsDesc walletContext) messages
       (execute (mcp := Bridge.bridge_client connect mcpClient)),
     mcpClient).

(** The handler, from the request to the response. *)
Definition POST_request (connect : outcome Bridge.Client)
  (body : outcome json) : ST (option Bridge.Client) http_response :=
  fun mcpClient =>
    let (generated, mcpClient') := generate connect body mcpClient in
    (Ret (POST generated), mcpClient').

(** The JSON value of a response's body, as [NextResponse.json] writes it:
    a field that is [undefined] is left out. *)
Definition item_data (c : ContentItem) : json :=
  JObj (("type", JStr (item_type c))
        :: match item_text c with
           | Some t => [("text", JStr t)]
           | None => []
           end).

Definition response_data (response : http_response) : json :=
  match response with
  | Http200 reply =>
      JObj ([("type", JStr (reply_type reply));
             ("content", JStr (reply_content reply))]
            ++ match reply_tool reply with
               | Some t => [("tool", JStr t)]
               | None => []
               end
            ++ match reply_result reply with
               | Some r =>
                   [("result",
                     JObj [("content", JArr (map item_data (env_content r)))])]
               | None => []
               end)%list
  | Http500 error details =>
      JObj [("error", JStr error); ("details", JStr details)]
  end.

End Request.


(* ------------------------------------------------------------------ *)
(** ** The chat component ([ChatInterface]) *)

Module ChatInterface.

(** [type Message]; a field holds what the response's JSON held. *)
Record Message : Type := mkMessage {
  role : string;
  content : json;
  type : option json;
  tool : option json;
  result : option json
}.

Definition INITIAL_MESSAGE : Message :=
  mkMessage "assistant"
    (JStr ("Hey! 👋 I'm your **Metaplex Genesis** assistant." ++ nl ++ nl
           ++ "I can help you:" ++ nl
           ++ "- **Create a new token** - just tell me the name and symbol"
           ++ nl
           ++ "- **Look up accounts** and bonding curves" ++ nl
           ++ "- **Get swap quotes**" ++ nl ++ nl
           ++ "Connect your wallet to get started, then tell me what you'd like to do!"))
    None None None.

(** What the component uses of the browser and of the Solana library. *)
Class Browser : Type := {
  (** [s.trim()] *)
  String_trim : string -> string;
  Transaction : Type;
  Keypair : Type;
  (** [VersionedTransaction.deserialize(Buffer.from(base64Tx, "base64"))] *)
  deserialize : json -> outcome Transaction;
  (** [Keypair.fromSecretKey(Buffer.from(mintSecretKey, "base64"))] *)
  fromSecretKey : json -> outcome Keypair;
  (** [transaction.sign([mintKeypair])]: the transaction, signed. *)
  sign : Transaction -> Keypair -> outcome Transaction
}.

Section Component.
Context {rt : JSRuntime} {br : Browser}.
Local Open Scope js_scope.

(** What a render gets from [useWallet] and [useConnection], and the
    network: [publicKey] by its base-58 form, and what [fetch] followed by
    [res.json()] comes to for a request body. *)
Record hooks : Type := mkHooks {
  publicKey : option string;
  sendTransaction : Transaction -> outcome string;
  confirmTransaction : string -> outcome unit;
  fetch : json -> outcome json
}.

(** What a handler does to the world, in order. *)
Inductive effect : Type :=
| Alert (msg : string)
| ConsoleError (error : exn)
| Fetch (body : json)
| SendTransaction (transaction : Transaction)
| ConfirmTransaction (signature : string).

(** The component's state, and the effects so far. *)
Record state : Type := mkState {
  messages : list Message;
  input : string;
  loading : bool;
  effects : list effect
}.

Definition initial : state := mkState [INITIAL_MESSAGE] "" false [].

Definition setMessages (f : list Message -> list Message) : ST state unit :=
  fun s =>
    (Ret tt, mkState (f (messages s)) (input s) (loading s) (effects s)).

Definition setInput (value : string) : ST state unit :=
  fun s => (Ret tt, mkState (messages s) value (loading s) (effects s)).

Definition setLoading (value : bool) : ST state unit :=
  fun s => (Ret tt, mkState (messages s) (input s) value (effects s)).

(** An effect, and what it comes to. *)
Definition perform {A} (e : effect) (o : outcome A) : ST state A :=
  fun s =>
    (o, mkState (messages s) (input s) (loading s) (effects s ++ [e])%list).

Definition handleClearHistory : ST state unit :=
  setMessages (fun _ => [INITIAL_MESSAGE]).

(** [a || b] for a [b] that is defined. *)
Definition or_default (a : option json) (b : json) : json :=
  match a with
  | Some v => if truthy v then v else b
  | None => b
  end.

(** The object literal [assistantMsg] for the response's [data]. *)
Definition assistantMsg (data : json) : outcome Message :=
  obind (get_prop data "content") (fun data_content =>
  obind (get_prop data "error") (fun data_error =>
  obind (get_prop data "type") (fun data_type =>
  obind (get_prop data "tool") (fun data_tool =>
  obind (get_prop data "result") (fun data_result =>
  Ret (mkMessage "assistant"
         (or_default data_content
            (or_default data_error (JStr "I'm processing your request...")))
         (Some (or_default data_type
                  (JStr (if truthy_opt data_error then "error" else "text"))))
         data_tool
         data_result)))))).

(** The body of the request: [walletAddress] is left out by
    [JSON.stringify] when no wallet is connected. *)
Definition request_body (h : hooks) (message : json)
  (historyToSend : list json) : json :=
  JObj ([("message", message); ("history", JArr historyToSend)]
        ++ match publicKey h with
           | Some address => [("walletAddress", JStr address)]
           | None => []
           end)%list.

(** [handleSend], run to its end.  [input] and [messages] are those of the
    render the handler belongs to. *)
Definition handleSend (h : hooks) : ST state unit :=
  fun s0 =>
    let input := input s0 in
    let messages := messages s0 in
    (if negb (truthy_str (String_trim input)) then st_ret tt
     else
       let userMsg := mkMessage "user" (JStr input) None None None in
       _ <~ setMessages (fun prev => (prev ++ [userMsg])%list) ;;
       _ <~ setInput "" ;;
       _ <~ setLoading true ;;
       st_finally
         (st_try
            (let historyToSend :=
               map (fun m => JObj [("role", JStr (role m));
                                   ("content", content m)])
                   (skipn 1 messages) in
             let body := request_body h (content userMsg) historyToSend in
             data <~ perform (Fetch body) (fetch h body) ;;
             assistantMsg <~ st_lift (assistantMsg data) ;;
             setMessages (fun prev => (prev ++ [assistantMsg])%list))
            (fun error =>
               setMessages
                 (fun prev =>
                    (prev ++ [mkMessage "assistant"
                                (JStr "Error communicating with server.")
                                (Some (JStr "error")) None None])%list)))
         (setLoading false)) s0.

Definition handleKeyDown (h : hooks) (key : string) (shiftKey : bool)
  : ST state unit :=
  if String.eqb key "Enter" && negb shiftKey then handleSend h
  else st_ret tt.

(** The message [handleSignAndSend] adds for a confirmed transaction. *)
Definition confirmed (signature : string) : Message :=
  mkMessage "assistant"
    (JStr ("✅ Transaction confirmed!" ++ nl ++ nl
           ++ "**Signature:** `" ++ signature ++ "`" ++ nl ++ nl
           ++ "[View on Solana Explorer](https://explorer.solana.com/tx/"
           ++ signature ++ "?cluster=devnet)"))
    (Some (JStr "text")) None None.

(** The message it adds when a step throws. *)
Definition failed (error : exn) : Message :=
  mkMessage "assistant" (JStr ("❌ Transaction failed: " ++ message error))
    (Some (JStr "error")) None None.

Definition handleSignAndSend (h : hooks) (base64Tx : json)
  (mintSecretKey : option json) : ST state unit :=
  match publicKey h with
  | None => perform (Alert "Please connect your wallet first!") (Ret tt)
  | Some _ =>
      st_try
        (transaction <~ st_lift (deserialize base64Tx) ;;
         transaction <~
           match mintSecretKey with
           | Some key =>
               if truthy key then
                 mintKeypair <~ st_lift (fromSecretKey key) ;;
                 st_lift (sign transaction mintKeypair)
               else st_ret transaction
           | None => st_ret transaction
           end ;;
         signature <~
           perform (SendTransaction transaction)
             (sendTransaction h transaction) ;;
         _ <~ perform (ConfirmTransaction signature)
                (confirmTransaction h signature) ;;
         setMessages (fun prev => (prev ++ [confirmed signature])%list))
        (fun error =>
           _ <~ perform (ConsoleError error) (Ret tt) ;;
           setMessages (fun prev => (prev ++ [failed error])%list))
  end.

(** What [getTransactionData] returns when it finds a transaction. *)
Record TxData : Type := mkTxData {
  transaction : json;
  mintSecretKey : option json
}.

(** The [try] block of [getTransactionData] for one item of type
    ["text"]: [Ret (Some _)] when it returns from the function,
    [Ret None] when it falls through. *)
Definition parsed_data (item : json) : outcome (option TxData) :=
  obind (get_prop item "text") (fun item_text =>
  obind (match item_text with
         | Some v => parse_or_throw (ToString v)
         | None => Throw (SyntaxError "undefined is not valid JSON")
         end) (fun parsed =>
  if truthy parsed then
    obind (get_prop parsed "transaction") (fun parsed_transaction =>
    match parsed_transaction with
    | Some tx =>
        if truthy tx then
          obind (get_prop parsed "mintSecretKey") (fun key =>
          Ret (Some (mkTxData tx key)))
        else Ret None
    | None => Ret None
    end)
  else Ret None)).

(** The loop of [getTransactionData]. *)
Fixpoint first_data (items : list json) : outcome (option TxData) :=
  match items with
  | [] => Ret None
  | item :: rest =>
      obind (get_prop item "type") (fun item_type =>
      if strict_eq_str item_type "text" then
        obind (otry (parsed_data item) (fun _ => Ret None)) (fun found =>
        match found with
        | Some txData => Ret (Some txData)
        | None => first_data rest
        end)
      else first_data rest)
  end.

Definition getTransactionData (content : option json)
  : outcome (option TxData) :=
  match content with
  | Some (JArr items) => first_data items
  | _ => Ret None
  end.

(** The render of the button under a message: the [txData] its click
    handler closes over, [None] when no button is rendered. *)
Definition sign_button (m : Message) : outcome (option TxData) :=
  if strict_eq_str (type m) "tool_result" && truthy_opt (result m) then
    if strict_eq_str (tool m) "create_genesis_account"
       || strict_eq_str (tool m) "swap" then
      match result m with
      | Some r =>
          obind (get_prop r "content") (fun r_content =>
          if truthy_opt r_content then getTransactionData r_content
          else Ret None)
      | None => Ret None
      end
    else Ret None
  else Ret None.

(** What the user does. *)
Inductive event : Type :=
| Change (value : string)
| Submit
| KeyDown (key : string) (shiftKey : bool)
| ClickClear
| ClickSign (i : nat).

(** The handler of an event, run to its end; a click on the button of
    message [i] needs the button to be there. *)
Definition dispatch (h : hooks) (e : event) : ST state unit :=
  match e with
  | Change value => setInput value
  | Submit => handleSend h
  | KeyDown key shiftKey => handleKeyDown h key shiftKey
  | ClickClear => handleClearHistory
  | ClickSign i =>
      fun s =>
        match nth_error (messages s) i with
        | Some m =>
            match sign_button m with
            | Ret (Some txData) =>
                handleSignAndSend h (transaction txData)
                  (mintSecretKey txData) s
            | _ => (Ret tt, s)
            end
        | None => (Ret tt, s)
        end
  end.

(** The state after a sequence of events, each with the hooks of its
    render. *)
Fixpoint run (events : list (hooks * event)) (s : state) : state :=
  match events with
  | [] => s
  | (h, e) :: rest => run rest (snd (dispatch h e s))
  end.

End Component.

End ChatInterface.

(* ------------------------------------------------------------------ *)
(** ** Notions for the component's properties *)

(** What [String.prototype.trim] is used for: the empty string stays
    empty. *)
Class TrimLaws (br : ChatInterface.Browser) : Prop := {
  trim_empty : ChatInterface.String_trim "" = ""
}.

Section ComponentNotions.
Context {rt : JSRuntime} {br : ChatInterface.Browser}.


(** The network answers with responses of the chat endpoint. *)
Definition genuine (h : ChatInterface.hooks) : Prop :=
  forall body data,
    ChatInterface.fetch h body = Ret data ->
    exists response, data = response_data response.

(** A message of the component as the model is given it. *)
Definition shows (m : ChatInterface.Message) (cm : ChatMessage) : Prop :=
  role cm = ChatInterface.role m
  /\ ChatInterface.content m = JStr (msg_content cm).

(** The body [handleSend] sends from a state. *)
Definition sent_body (h : ChatInterface.hooks) (s : ChatInterface.state)
  : json :=
  ChatInterface.request_body h (JStr (ChatInterface.input s))
    (map (fun m => JObj [("role", JStr (ChatInterface.role m));
                         ("content", ChatInterface.content m)])
       (skipn 1 (ChatInterface.messages s))).

(** The message [handleSend] adds after the user's. *)
Definition answer (h : ChatInterface.hooks) (body : json)
  : ChatInterface.Message :=
  match obind (ChatInterface.fetch h body) ChatInterface.assistantMsg with
  | Ret m => m
  | Throw _ =>
      ChatInterface.mkMessage "assistant"
        (JStr "Error communicating with server.") (Some (JStr "error"))
        None None
  end.

(** The transaction [handleSignAndSend] has when it comes to sending:
    deserialized and, with a mint key, signed with it. *)
Definition prepared (base64Tx : json) (mintSecretKey : option json)
  : outcome ChatInterface.Transaction :=
  obind (ChatInterface.deserialize base64Tx) (fun raw =>
  match mintSecretKey with
  | Some key =>
      if truthy key then
        obind (ChatInterface.fromSecretKey key) (ChatInterface.sign raw)
      else Ret raw
  | None => Ret raw
  end).

(** A message the schema of [history] accepts: the user's or the
    assistant's, with a string for content. *)
Definition plain (m : ChatInterface.Message) : Prop :=
  (ChatInterface.role m = "user" \/ ChatInterface.role m = "assistant")
  /\ exists c, ChatInterface.content m = JStr c.

(** The component's state between two events. *)
Definition settled (s : ChatInterface.state) : Prop :=
  (exists rest,
     ChatInterface.messages s = ChatInterface.INITIAL_MESSAGE :: rest)
  /\ ChatInterface.loading s = false
  /\ Forall
       (fun m =>
          truthy (ChatInterface.content m) = true
          /\ (ChatInterface.role m = "user"
              \/ ChatInterface.role m = "assistant"))
       (ChatInterface.messages s).

(** The network when the endpoint answers: the request's body reaches the
    handler, which runs with the module's variable at [mcpClient], and the
    JSON of its response comes back. *)
Definition served {sv : Services} (connect : outcome Bridge.Client)
  (mcpClient : option Bridge.Client) (body : json) : outcome json :=
  match fst (POST_request connect (Ret body) mcpClient) with
  | Ret response => Ret (response_data response)
  | Throw e => Throw e
  end.

End ComponentNotions.

(* ------------------------------------------------------------------ *)
(** ** An executable browser

    [trim] for ASCII white space; a transaction and a keypair are the
    strings they are decoded from, and signing appends the key. *)

Module RefBrowser.

Definition is_space (c : ascii) : bool :=
  Ascii.eqb c " " || Ascii.eqb c "009" || Ascii.eqb c "010"
  || Ascii.eqb c "011" || Ascii.eqb c "012" || Ascii.eqb c "013".

Fixpoint trim_start (s : string) : string :=
  match s with
  | EmptyString => ""
  | String c rest => if is_space c then trim_start rest else s
  end.

Fixpoint trim_end (s : string) : string :=
  match s with
  | EmptyString => ""
  | String c rest =>
      match trim_end rest with
      | EmptyString => if is_space c then "" else String c ""
      | kept => String c kept
      end
  end.

Definition trim (s : string) : string := trim_end (trim_start s).

Definition decode (v : json) : outcome string :=
  match v with
  | JStr s => Ret s
  | _ => Throw (TypeError "The first argument must be of type string")
  end.

Definition browser : ChatInterface.Browser :=
  {| ChatInterface.String_trim := trim;
     ChatInterface.Transaction := string;
     ChatInterface.Keypair := string;
     ChatInterface.deserialize := decode;
     ChatInterface.fromSecretKey := decode;
     ChatInterface.sign := fun transaction keypair =>
       Ret (transaction ++ "+" ++ keypair) |}.

End RefBrowser.

(* ------------------------------------------------------------------ *)
(** ** Sample inputs for the bridge, the request and the component *)

Section Samples.
Existing Instance RefRuntime.runtime.
Existing Instance RefBrowser.browser.

(** A payload, then an error. *)
Definition payload_then_error_run : GenResult :=
  mkGenResult "" [tool_step (payload_text "AAA"); tool_step "Error: boom"].

(** The bridge was down at the only tool call. *)
Definition bridge_down_run : GenResult :=
  mkGenResult "" [tool_step "Error executing tool: connection closed"].

(** A bridge whose every call reports an error without text. *)
Definition silent_error_client : McpClient :=
  {| client_callTool := fun _ _ => Ret (mkToolResult (Some []) true) |}.

Definition silent_error_run : GenResult :=
  mkGenResult "" [tool_step "Tool execution failed with an unknown error."].

Definition swap_tool : Bridge.Tool :=
  Bridge.mkTool "swap" (Some "Swap on a bonding curve")
    (JObj [("type", JStr "object")]).

Definition quote_tool : Bridge.Tool :=
  Bridge.mkTool "get_swap_quote" None (JObj [("type", JStr "object")]).

(** A connected client with two tools, whose every call returns a
    payload. *)
Definition sample_client : Bridge.Client :=
  Bridge.mkClient
    (fun _ _ =>
       Ret (mkToolResult
              (Some [mkContentItem "text" (Some (payload_text "AAA"))])
              false))
    (Ret [swap_tool; quote_tool]).

(** A connected client that cannot list its tools. *)
Definition mute_client : Bridge.Client :=
  Bridge.mkClient (fun _ _ => Throw (Error "connection closed"))
    (Throw (Error "listing failed")).

(** A model provider whose every run is [c5_run]. *)
Definition sample_services : Services :=
  {| ZodError_message := fun _ => "invalid request";
     generateText := fun _ _ _ => Ret c5_run |}.

(** [{ message: "create a token" }] *)
Definition sample_body : json := JObj [("message", JStr "create a token")].

(** [{ message: 5 }] *)
Definition bad_body : json := JObj [("message", JNum 5)].

(** A wallet that signs and a network on which the endpoint answers, with
    [sample_client] to connect to. *)
Definition sample_hooks : ChatInterface.hooks :=
  ChatInterface.mkHooks (Some "Wallet111")
    (fun transaction => Ret ("sig:" ++ transaction))
    (fun _ => Ret tt)
    (served (sv := sample_services) (Ret sample_client) None).

(** The user types, sends, clicks the button under the reply, and types
    again. *)
Definition sample_events
  : list (ChatInterface.hooks * ChatInterface.event) :=
  [(sample_hooks, ChatInterface.Change "create a token");
   (sample_hooks, ChatInterface.Submit);
   (sample_hooks, ChatInterface.ClickSign 2);
   (sample_hooks, ChatInterface.Change "and now swap it")].

Definition sample_state : ChatInterface.state :=
  ChatInterface.run sample_events ChatInterface.initial.

End Samples.

(* ------------------------------------------------------------------ *)
(** * Facts about the scan monad *)

Lemma upd_none (st : scan_state) : upd None None st = st.
Proof. destruct st; reflexivity. Qed.

Lemma upd_upd u1 ue1 u2 ue2 st :
  upd u2 ue2 (upd u1 ue1 st)
  = upd (match u2 with Some v => Some v | None => u1 end)
        (match ue2 with Some e => Some e | None => ue1 end) st.
Proof. destruct u1, ue1, u2, ue2; reflexivity. Qed.

Lemma returns_mret {A} (a : A) : returns (mret a).
Proof. intros st; exists a; reflexivity. Qed.

Lemma returns_set_transactionData v : returns (set_transactionData v).
Proof. intros st; exists tt; reflexivity. Qed.

Lemma returns_set_toolError e : returns (set_toolError e).
Proof. intros st; exists tt; reflexivity. Qed.

Lemma returns_mtry {A} (m : M A) (h : exn -> M A) :
  (forall e, returns (h e)) -> returns (mtry m h).
Proof.
  intros Hh st. unfold mtry.
  destruct (m st) as [[a | e] st'].
  - exists a; reflexivity.
  - apply Hh.
Qed.

Lemma returns_for_each {A} (l : list A) (body : A -> M unit) :
  (forall x, returns (body x)) -> returns (for_each l body).
Proof.
  intros Hb. induction l as [| x l IH]; intros st; simpl.
  - exists tt; reflexivity.
  - unfold mbind. destruct (Hb x st) as [a Ha].
    destruct (body x st) as [o st']; simpl in Ha; subst o.
    apply IH.
Qed.

Lemma for_each_app_exec {A} (l1 l2 : list A) (body : A -> M unit) st :
  (forall x, returns (body x)) ->
  exec (for_each (l1 ++ l2)%list body) st
  = exec (for_each l2 body) (exec (for_each l1 body) st).
Proof.
  intros Hb. revert st. induction l1 as [| x l1 IH]; intros st; simpl.
  - reflexivity.
  - unfold exec, mbind in *. destruct (Hb x st) as [a Ha].
    destruct (body x st) as [o st']; simpl in Ha; subst o.
    apply IH.
Qed.

Lemma writer_mret {A} (a : A) : writer (mret a).
Proof.
  exists (Ret a), None, None. repeat split; try discriminate.
  intros st; unfold mret; now rewrite upd_none.
Qed.

Lemma writer_throw {A} (e : exn) : writer (@lift A (Throw e)).
Proof.
  exists (Throw e), None, None. repeat split; try discriminate.
  intros st; unfold lift; now rewrite upd_none.
Qed.

Lemma writer_set_transactionData v :
  good_payload v -> writer (set_transactionData v).
Proof.
  intros Hv. exists (Ret tt), (Some v), None. repeat split; try discriminate.
  intros p [= <-]; exact Hv.
Qed.

Lemma writer_set_toolError e :
  truthy_str e = true -> writer (set_toolError e).
Proof.
  intros He. exists (Ret tt), None, (Some e). repeat split; try discriminate.
  intros e' [= <-]; exact He.
Qed.

Lemma writer_mbind {A B} (m : M A) (k : A -> M B) :
  writer m -> (forall a, writer (k a)) -> writer (mbind m k).
Proof.
  intros (o & u & ue & Hm & Hu & Hue) Hk.
  destruct o as [a | e].
  - destruct (Hk a) as (o' & u' & ue' & Hk' & Hu' & Hue').
    exists o', (match u' with Some v => Some v | None => u end),
           (match ue' with Some x => Some x | None => ue end).
    split; [| split].
    + intros st. unfold mbind. rewrite Hm, Hk'. now rewrite upd_upd.
    + intros p. destruct u'; [intros [= <-]; now apply Hu' | apply Hu].
    + intros x. destruct ue'; [intros [= <-]; now apply Hue' | apply Hue].
  - exists (Throw e), u, ue. split; [| split]; auto.
    intros st. unfold mbind. now rewrite Hm.
Qed.

(** Binding a pure step: the continuation knows what the step returned. *)
Lemma writer_mbind_lift {A B} (o : outcome A) (k : A -> M B) :
  (forall a, o = Ret a -> writer (k a)) -> writer (mbind (lift o) k).
Proof.
  intros Hk. destruct o as [a | e].
  - destruct (Hk a eq_refl) as (o' & u' & ue' & Hk' & Hu' & Hue').
    exists o', u', ue'. split; [| split]; auto.
  - exists (Throw e), None, None. repeat split; try discriminate.
    intros st. unfold mbind, lift. now rewrite upd_none.
Qed.

Lemma writer_mtry {A} (m : M A) (h : exn -> M A) :
  writer m -> (forall e, writer (h e)) -> writer (mtry m h).
Proof.
  intros (o & u & ue & Hm & Hu & Hue) Hh.
  destruct o as [a | e].
  - exists (Ret a), u, ue. split; [| split]; auto.
    intros st. unfold mtry. now rewrite Hm.
  - destruct (Hh e) as (o' & u' & ue' & Hk' & Hu' & Hue').
    exists o', (match u' with Some v => Some v | None => u end),
           (match ue' with Some x => Some x | None => ue end).
    split; [| split].
    + intros st. unfold mtry. rewrite Hm, Hk'. now rewrite upd_upd.
    + intros p. destruct u'; [intros [= <-]; now apply Hu' | apply Hu].
    + intros x. destruct ue'; [intros [= <-]; now apply Hue' | apply Hue].
Qed.

Lemma writer_for_each {A} (l : list A) (body : A -> M unit) :
  (forall x, writer (body x)) -> writer (for_each l body).
Proof.
  intros Hb. induction l as [| x l IH]; simpl.
  - apply writer_mret.
  - apply writer_mbind; auto.
Qed.

(** What a writer assigns overwrites the payload or keeps it. *)
Lemma writer_frame {A} (m : M A) st :
  writer m ->
  transactionData (exec m st)
  = match transactionData (exec m scan_init) with
    | Some p => Some p
    | None => transactionData st
    end.
Proof.
  intros (o & u & ue & Hm & _ & _). unfold exec. rewrite !Hm. simpl.
  destruct u; reflexivity.
Qed.

Lemma writer_frame_error {A} (m : M A) st :
  writer m ->
  toolError (exec m st)
  = match toolError (exec m scan_init) with
    | Some e => Some e
    | None => toolError st
    end.
Proof.
  intros (o & u & ue & Hm & _ & _). unfold exec. rewrite !Hm. simpl.
  destruct ue; reflexivity.
Qed.

Lemma writer_state_ok {A} (m : M A) st :
  writer m -> state_ok st -> state_ok (exec m st).
Proof.
  intros (o & u & ue & Hm & Hu & Hue) [Hp He]. unfold exec. rewrite Hm.
  split; simpl.
  - intros p. destruct u; [intros [= <-]; now apply Hu | apply Hp].
  - intros e. destruct ue; [intros [= <-]; now apply Hue | apply He].
Qed.

Lemma state_ok_init : state_ok scan_init.
Proof. split; discriminate. Qed.

Lemma good_payload_truthy p : good_payload p -> truthy p = true.
Proof.
  intros (tx & Hf & _). destruct p; try discriminate. reflexivity.
Qed.

(* ------------------------------------------------------------------ *)
(** * Facts about the step-history scan *)

Section ScanFacts.
Context {rt : JSRuntime}.

Lemma get_prop_field v k o : get_prop v k = Ret o -> o = field v k.
Proof. destruct v; simpl; congruence. Qed.

Lemma get_prop_not_null v k :
  v <> JNull -> get_prop v k = Ret (field v k).
Proof. destruct v; simpl; congruence. Qed.

Lemma truthy_not_null v : truthy v = true -> v <> JNull.
Proof. destruct v; simpl; congruence. Qed.

Lemma truthy_field_good v :
  truthy_field v "transaction" = true -> good_payload v.
Proof.
  unfold truthy_field, good_payload, truthy_opt.
  destruct (field v "transaction") as [tx |]; [| discriminate].
  intros H; now exists tx.
Qed.

Lemma good_payload_field v : good_payload v -> truthy_field v "transaction" = true.
Proof.
  intros (tx & Hf & Ht). unfold truthy_field. now rewrite Hf.
Qed.

Lemma startsWith_truthy s p :
  truthy_str p = true -> startsWith s p = true -> truthy_str s = true.
Proof.
  unfold startsWith. destruct p; [discriminate |]. destruct s; simpl; auto.
Qed.

Lemma writer_scan_legacy_item item : writer (scan_legacy_item item).
Proof.
  unfold scan_legacy_item.
  apply writer_mbind_lift; intros ty _.
  destruct (strict_eq_str ty "text"); [| apply writer_mret].
  apply writer_mbind_lift; intros txt _.
  destruct (truthy_opt txt); [| apply writer_mret].
  apply writer_mbind_lift; intros s _.
  destruct (startsWith s "Error:") eqn:He.
  - apply writer_set_toolError.
    now apply (startsWith_truthy s "Error:").
  - apply writer_mtry; [| intros; apply writer_mret].
    apply writer_mbind_lift; intros inner _.
    apply writer_mbind_lift; intros tx Htx.
    destruct (truthy_opt tx) eqn:Ht; [| apply writer_mret].
    apply writer_set_transactionData, truthy_field_good.
    unfold truthy_field. now rewrite <- (get_prop_field _ _ _ Htx).
Qed.

Lemma error_marked_truthy s : error_marked s = true -> truthy_str s = true.
Proof.
  unfold error_marked. intros H. apply orb_prop in H as [H | H].
  - now apply (startsWith_truthy s "Error:").
  - now apply (startsWith_truthy s "Error executing").
Qed.

(** [resultStr] is non-empty whenever the body is entered; the last
    assignment of [toolError] relies on it. *)
Lemma writer_scan_result_string s :
  truthy_str s = true -> writer (scan_result_string s).
Proof.
  intros Hs. unfold scan_result_string.
  destruct (startsWith s "Error:" || startsWith s "Error executing").
  - now apply writer_set_toolError.
  - apply writer_mtry.
    + apply writer_mbind_lift; intros parsed _.
      apply writer_mbind_lift; intros tx Htx.
      destruct (truthy_opt tx) eqn:Ht.
      * apply writer_set_transactionData, truthy_field_good.
        unfold truthy_field. now rewrite <- (get_prop_field _ _ _ Htx).
      * destruct parsed; try apply writer_mret.
        apply writer_for_each, writer_scan_legacy_item.
    + intros e. destruct (includes s "Error").
      * now apply writer_set_toolError.
      * apply writer_mret.
Qed.

Lemma returns_scan_result_string s : returns (scan_result_string s).
Proof.
  unfold scan_result_string.
  destruct (startsWith s "Error:" || startsWith s "Error executing").
  - apply returns_set_toolError.
  - apply returns_mtry. intros e. destruct (includes s "Error").
    + apply returns_set_toolError.
    + apply returns_mret.
Qed.

Lemma returns_scan_content_part part : returns (scan_content_part part).
Proof.
  unfold scan_content_part.
  destruct (String.eqb (part_type part) "tool-result"); [| apply returns_mret].
  cbv zeta. destruct (negb (truthy_str (result_string (output part)))).
  - apply returns_mret.
  - apply returns_scan_result_string.
Qed.

Lemma returns_scan_step step : returns (scan_step step).
Proof.
  unfold scan_step. destruct (step_content step).
  - apply returns_for_each, returns_scan_content_part.
  - apply returns_mret.
Qed.

Lemma returns_scan_steps steps : returns (scan_steps steps).
Proof. apply returns_for_each, returns_scan_step. Qed.

Lemma scan_strings_app l1 l2 st :
  scan_strings (l1 ++ l2)%list st = scan_strings l2 (scan_strings l1 st).
Proof. unfold scan_strings. apply fold_left_app. Qed.

Lemma exec_for_each_cons {A} (x : A) l (body : A -> M unit) st :
  (forall y, returns (body y)) ->
  exec (for_each (x :: l) body) st = exec (for_each l body) (exec (body x) st).
Proof.
  intros Hb. simpl. unfold exec, mbind. destruct (Hb x st) as [a Ha].
  destruct (body x st) as [o st']; simpl in Ha; subst o. reflexivity.
Qed.

Lemma exec_parts parts st :
  exec (for_each parts scan_content_part) st
  = scan_strings (part_result_strings parts) st.
Proof.
  revert st. induction parts as [| p parts IH]; intros st.
  - reflexivity.
  - rewrite exec_for_each_cons by apply returns_scan_content_part.
    rewrite IH. unfold part_result_strings at 2. simpl flat_map.
    fold (part_result_strings parts). rewrite scan_strings_app. f_equal.
    unfold scan_content_part.
    destruct (String.eqb (part_type p) "tool-result"); [| reflexivity].
    cbv zeta. destruct (truthy_str (result_string (output p))); reflexivity.
Qed.

(** The scan of a step history is the scan of its result strings. *)
Lemma exec_scan_steps steps st :
  exec (scan_steps steps) st = scan_strings (result_strings steps) st.
Proof.
  unfold scan_steps. revert st.
  induction steps as [| s steps IH]; intros st.
  - reflexivity.
  - rewrite exec_for_each_cons by apply returns_scan_step.
    rewrite IH. unfold result_strings at 2. simpl flat_map.
    fold (result_strings steps). rewrite scan_strings_app. f_equal.
    unfold scan_step. destruct (step_content s); [apply exec_parts | reflexivity].
Qed.

Lemma result_strings_truthy steps s :
  In s (result_strings steps) -> truthy_str s = true.
Proof.
  unfold result_strings. rewrite in_flat_map. intros (st & _ & Hs).
  destruct (step_content st) as [parts |]; [| contradiction].
  unfold part_result_strings in Hs. rewrite in_flat_map in Hs.
  destruct Hs as (p & _ & Hp).
  destruct (String.eqb (part_type p) "tool-result"); [| contradiction].
  cbv zeta in Hp.
  destruct (truthy_str (result_string (output p))) eqn:E; [| contradiction].
  destruct Hp as [<- | []]. exact E.
Qed.

Lemma scan_strings_ok strs st :
  (forall s, In s strs -> truthy_str s = true) ->
  state_ok st -> state_ok (scan_strings strs st).
Proof.
  revert st. induction strs as [| s strs IH]; intros st Hne Hok; simpl.
  - exact Hok.
  - apply IH; [intros x Hx; apply Hne; now right |].
    apply writer_state_ok; [| exact Hok].
    apply writer_scan_result_string, Hne. now left.
Qed.

(** Last assignment wins. *)
Lemma scan_strings_payload strs st :
  (forall s, In s strs -> truthy_str s = true) ->
  transactionData (scan_strings strs st)
  = fold_left
      (fun acc s => match payload_of s with Some q => Some q | None => acc end)
      strs (transactionData st).
Proof.
  revert st. induction strs as [| s strs IH]; intros st Hne; simpl.
  - reflexivity.
  - rewrite IH by (intros x Hx; apply Hne; now right). f_equal.
    apply writer_frame, writer_scan_result_string, Hne. now left.
Qed.

Lemma overwritten_fold p strs :
  fold_left
    (fun acc s => match payload_of s with Some q => Some q | None => acc end)
    strs (Some p)
  = Some (overwritten p strs).
Proof.
  unfold overwritten. revert p.
  induction strs as [| s strs IH]; intros p; simpl.
  - reflexivity.
  - destruct (payload_of s); apply IH.
Qed.

Lemma scanned_eq result :
  scanned result = scan_strings (result_strings (steps result)) scan_init.
Proof. apply exec_scan_steps. Qed.

Lemma scanned_ok result : state_ok (scanned result).
Proof.
  rewrite scanned_eq. apply scan_strings_ok; [| apply state_ok_init].
  apply result_strings_truthy.
Qed.

End ScanFacts.

(* ------------------------------------------------------------------ *)
(** * Facts about the handler *)

Section HandlerFacts.
Context {rt : JSRuntime}.

Lemma infer_tool_name_returns d :
  infer_tool_name d
  = Ret (match d with
         | Some p => if truthy p then tool_label p else "create_genesis_account"
         | None => "create_genesis_account"
         end).
Proof.
  destruct d as [p |]; simpl; [| reflexivity].
  destruct (truthy p) eqn:Hp; [| reflexivity].
  rewrite (get_prop_not_null p "baseMint") by now apply truthy_not_null.
  simpl. unfold tool_label, truthy_field.
  destruct (truthy_opt (field p "baseMint")); reflexivity.
Qed.

(** The reply in terms of the extracted payload. *)
Lemma respond_returns result :
  respond result
  = Ret (match extracted result with
         | Some p =>
             if truthy p then payload_reply p (final_content result)
             else text_reply (final_content result)
         | None => text_reply (final_content result)
         end).
Proof.
  unfold respond.
  destruct (returns_scan_steps (steps result) scan_init) as [[] Hr].
  pose proof (eq_refl : scanned result = snd (scan_steps (steps result) scan_init)) as Hs.
  destruct (scan_steps (steps result) scan_init) as [o st].
  simpl in Hr, Hs. subst o. rewrite <- Hs. simpl obind.
  fold (final_content result). fold (extracted result).
  rewrite infer_tool_name_returns. simpl.
  unfold build_reply, payload_reply, text_reply, wrap.
  destruct (extracted result) as [p |]; [| reflexivity].
  destruct (truthy p); reflexivity.
Qed.

Lemma POST_returns result :
  POST (Ret result)
  = Http200 (match extracted result with
             | Some p =>
                 if truthy p then payload_reply p (final_content result)
                 else text_reply (final_content result)
             | None => text_reply (final_content result)
             end).
Proof. unfold POST. simpl. now rewrite respond_returns. Qed.

(** With a payload from the step history the final text is not scanned and
    an empty text becomes the announcement. *)
Lemma POST_scanned_payload result p :
  transactionData (scanned result) = Some p ->
  POST (Ret result)
  = Http200 (payload_reply p (if truthy_str (text result) then text result
                              else announce p)).
Proof.
  intros Hp. rewrite POST_returns.
  pose proof (scanned_ok result) as [Hok _].
  pose proof (good_payload_truthy p (Hok p Hp)) as Ht.
  assert (Hc : final_content result
               = if truthy_str (text result) then text result else announce p).
  { unfold final_content, synthesize. rewrite Hp. simpl truthy_opt. rewrite Ht.
    destruct (truthy_str (text result)); reflexivity. }
  assert (He : extracted result = Some p).
  { unfold extracted, scan_final_text. rewrite Hp. simpl truthy_opt.
    now rewrite Ht. }
  rewrite He, Ht, Hc. reflexivity.
Qed.

Lemma startsWith_cons s a p :
  startsWith s (String a p) = true -> exists rest, s = String a rest.
Proof.
  unfold startsWith. destruct s as [| c s]; cbn [String.prefix].
  - discriminate.
  - destruct (Ascii.ascii_dec a c) as [<- | _]; [eauto | discriminate].
Qed.

Lemma error_marked_E s :
  error_marked s = true -> exists rest, s = String "E"%char rest.
Proof.
  unfold error_marked. intros H. apply orb_prop in H as [H | H];
    now apply startsWith_cons in H.
Qed.

(** A result string that parses to an object with a truthy [transaction]
    is assigned to [transactionData]. *)
Lemma scan_direct_payload `{!JSONLaws rt} s v st :
  JSON_parse s = Some v ->
  truthy_field v "transaction" = true ->
  scan_result_string s st = (Ret tt, mkScan (Some v) (toolError st)).
Proof.
  intros Hparse Htx. unfold scan_result_string.
  assert (Hm : startsWith s "Error:" || startsWith s "Error executing" = false).
  { fold (error_marked s). destruct (error_marked s) eqn:E; [| reflexivity].
    apply error_marked_E in E as [rest ->].
    now rewrite JSON_parse_rejects_E in Hparse. }
  rewrite Hm. unfold mtry, mbind, lift, parse_or_throw. rewrite Hparse.
  assert (Hv : v <> JNull) by (intros ->; discriminate).
  rewrite (get_prop_not_null v "transaction" Hv).
  unfold truthy_field in Htx. rewrite Htx. reflexivity.
Qed.

Lemma scan_error_marked s st :
  error_marked s = true ->
  scan_result_string s st = (Ret tt, mkScan (transactionData st) (Some s)).
Proof.
  intros H. unfold scan_result_string, error_marked in *. now rewrite H.
Qed.

Lemma payload_of_direct `{!JSONLaws rt} s v :
  JSON_parse s = Some v ->
  truthy_field v "transaction" = true ->
  payload_of s = Some v.
Proof.
  intros Hp Ht. unfold payload_of, exec.
  now rewrite (scan_direct_payload s v scan_init Hp Ht).
Qed.

End HandlerFacts.

(* ------------------------------------------------------------------ *)
(** * The executable runtime obeys the laws *)

Module RefRuntimeFacts.
Import RefRuntime.

(** *** Strings *)

Lemma append_assoc (a b c : string) : (a ++ b) ++ c = a ++ (b ++ c).
Proof. induction a as [| x a IH]; simpl; [reflexivity | now rewrite IH]. Qed.

Lemma append_nil_r (a : string) : a ++ "" = a.
Proof. induction a as [| x a IH]; simpl; [reflexivity | now rewrite IH]. Qed.

Lemma parse_chars_escape_char c X :
  parse_chars (escape_char c ++ X) = cons_char c (parse_chars X).
Proof. destruct c as [[] [] [] [] [] [] [] []]; reflexivity. Qed.

Lemma parse_chars_escape s rest :
  parse_chars (escape s ++ String "034" rest) = Some (s, rest).
Proof.
  induction s as [| c s IH]; simpl.
  - reflexivity.
  - rewrite append_assoc, parse_chars_escape_char, IH. reflexivity.
Qed.

(** *** Numbers *)
Lemma read_digits_step c d r acc :
  digit_val c = Some d ->
  read_digits (String c r) acc = read_digits r (10 * acc + d).
Proof. intros H. simpl. now rewrite H. Qed.

(** One digit of the text: the digit [k] takes the accumulator to [q]. *)
Ltac digit_case Hstep k q :=
  apply (Hstep _ k _ _ q); [reflexivity | lia | auto].

Lemma read_digits_uint d acc rest :
  number_goes_on rest = false ->
  read_digits (NilEmpty.string_of_uint d ++ rest) (Z.pos acc)
  = (Z.pos (Pos.of_uint_acc d acc), rest).
Proof.
  intros Hrest. revert acc.
  assert (Hstep : forall c k r (p : positive) (q : positive) (x : Z * string),
             digit_val c = Some k ->
             (10 * Z.pos p + k = Z.pos q)%Z ->
             read_digits r (Z.pos q) = x ->
             read_digits (String c r) (Z.pos p) = x).
  { intros c k r p q x Hc Hq Hx. rewrite (read_digits_step c k r _ Hc).
    now rewrite Hq. }
  induction d; intros acc; cbn [NilEmpty.string_of_uint String.append].
  - destruct rest as [| c r]; [reflexivity |]. simpl.
    simpl in Hrest. unfold is_digit in Hrest.
    destruct (digit_val c); [discriminate | reflexivity].
  - digit_case Hstep 0%Z (10 * acc)%positive.
  - digit_case Hstep 1%Z (1 + 10 * acc)%positive.
  - digit_case Hstep 2%Z (2 + 10 * acc)%positive.
  - digit_case Hstep 3%Z (3 + 10 * acc)%positive.
  - digit_case Hstep 4%Z (4 + 10 * acc)%positive.
  - digit_case Hstep 5%Z (5 + 10 * acc)%positive.
  - digit_case Hstep 6%Z (6 + 10 * acc)%positive.
  - digit_case Hstep 7%Z (7 + 10 * acc)%positive.
  - digit_case Hstep 8%Z (8 + 10 * acc)%positive.
  - digit_case Hstep 9%Z (9 + 10 * acc)%positive.
Qed.

(** [Pos.to_uint] has no leading zero. *)
Lemma to_uint_head p :
  match Pos.to_uint p with
  | Nil | D0 _ => False
  | _ => True
  end.
Proof.
  pose proof (Unsigned.to_of (Pos.to_uint p)) as H.
  rewrite Unsigned.of_to in H. simpl in H.
  pose proof (Unsigned.to_uint_nonzero p) as Hz.
  pose proof (Unsigned.to_uint_nonnil p) as Hn.
  destruct (Pos.to_uint p) as [| u | u | u | u | u | u | u | u | u | u];
    try exact I; try congruence.
  unfold unorm in H. simpl in H.
  destruct (nzhead u) eqn:E; try discriminate.
  - injection H as Hu. subst u. now apply Hz.
  - now apply nzhead_nonzero in E.
Qed.

Lemma parse_unsigned_digit c k r :
  digit_val c = Some (Z.pos k) ->
  parse_unsigned (String c r)
  = let (n, rest) := read_digits r (Z.pos k) in
    if number_goes_on rest then None else Some (n, rest).
Proof. intros H. unfold parse_unsigned. now rewrite H. Qed.

Lemma parse_unsigned_pos p rest :
  number_goes_on rest = false ->
  parse_unsigned (NilEmpty.string_of_uint (Pos.to_uint p) ++ rest)
  = Some (Z.pos p, rest).
Proof.
  intros Hrest.
  pose proof (to_uint_head p) as Hh.
  pose proof (Unsigned.of_to p) as Hv.
  destruct (Pos.to_uint p) as [| u | u | u | u | u | u | u | u | u | u];
    try contradiction;
    cbn [NilEmpty.string_of_uint String.append];
    simpl in Hv; injection Hv as Hv.
  all: first
         [ rewrite (parse_unsigned_digit _ 1%positive) by reflexivity
         | rewrite (parse_unsigned_digit _ 2%positive) by reflexivity
         | rewrite (parse_unsigned_digit _ 3%positive) by reflexivity
         | rewrite (parse_unsigned_digit _ 4%positive) by reflexivity
         | rewrite (parse_unsigned_digit _ 5%positive) by reflexivity
         | rewrite (parse_unsigned_digit _ 6%positive) by reflexivity
         | rewrite (parse_unsigned_digit _ 7%positive) by reflexivity
         | rewrite (parse_unsigned_digit _ 8%positive) by reflexivity
         | rewrite (parse_unsigned_digit _ 9%positive) by reflexivity ].
  all: now rewrite (read_digits_uint u _ rest Hrest), Hv, Hrest.
Qed.

Lemma string_of_uint_pos p :
  NilZero.string_of_uint (Pos.to_uint p)
  = NilEmpty.string_of_uint (Pos.to_uint p).
Proof.
  pose proof (Unsigned.to_uint_nonnil p).
  unfold NilZero.string_of_uint. now destruct (Pos.to_uint p).
Qed.

Lemma pos_digits_head p :
  exists c r,
    NilEmpty.string_of_uint (Pos.to_uint p) = String c r
    /\ is_digit c = true.
Proof.
  pose proof (to_uint_head p) as Hh.
  destruct (Pos.to_uint p); try contradiction; simpl; eauto.
Qed.

Lemma parse_number_show n rest :
  number_goes_on rest = false ->
  parse_number (show_Z n ++ rest) = Some (JNum n, rest).
Proof.
  intros Hrest. unfold show_Z. destruct n as [| p | p]; simpl Z.to_int.
  - cbn -[number_goes_on]. change (digit_val "0") with (Some 0%Z).
    cbn -[number_goes_on]. now rewrite Hrest.
  - unfold NilZero.string_of_int. rewrite string_of_uint_pos.
    destruct (pos_digits_head p) as (c & r & Hs & Hc).
    unfold parse_number.
    pose proof (parse_unsigned_pos p rest Hrest) as Hp.
    rewrite Hs in *. cbn [String.append after_char] in *.
    assert (Hm : Ascii.eqb c "-" = false).
    { destruct c as [[] [] [] [] [] [] [] []]; try reflexivity; discriminate. }
    now rewrite Hm, Hp.
  - unfold NilZero.string_of_int. rewrite string_of_uint_pos.
    cbn [String.append]. unfold parse_number. cbn [after_char Ascii.eqb Bool.eqb].
    now rewrite (parse_unsigned_pos p rest Hrest).
Qed.


Lemma size_pos v : 1 <= size v.
Proof. destruct v; simpl; lia. Qed.

Lemma digit_not_ws c :
  is_digit c || Ascii.eqb c "-" = true ->
  is_json_ws c = false /\ Ascii.eqb c "]" = false.
Proof.
  destruct c as [[] [] [] [] [] [] [] []]; try discriminate; now split.
Qed.

Lemma show_Z_head n rest :
  exists c r,
    show_Z n ++ rest = String c r /\ is_digit c || Ascii.eqb c "-" = true.
Proof.
  unfold show_Z. destruct n as [| p | p]; simpl Z.to_int.
  - simpl. eauto.
  - unfold NilZero.string_of_int. rewrite string_of_uint_pos.
    destruct (pos_digits_head p) as (c & r & Hs & Hc). rewrite Hs.
    exists c, (r ++ rest). split; [reflexivity | now rewrite Hc].
  - simpl. eauto.
Qed.

Lemma stringify_head v tail :
  exists c r,
    stringify v ++ tail = String c r
    /\ is_json_ws c = false /\ Ascii.eqb c "]" = false.
Proof.
  destruct v as [| [] | n | s | items | fields]; simpl stringify;
    try (do 2 eexists; split; [reflexivity | now split]).
  destruct (show_Z_head n tail) as (c & r & Hs & Hc).
  exists c, r. split; [exact Hs | now apply digit_not_ws].
Qed.

Lemma parse_value_number f c r :
  is_digit c || Ascii.eqb c "-" = true ->
  parse_value (S f) (String c r) = parse_number (String c r).
Proof.
  destruct c as [[] [] [] [] [] [] [] []]; try discriminate; reflexivity.
Qed.

Lemma parse_value_string f r :
  parse_value (S f) (String "034" r)
  = match parse_chars r with
    | Some (body, rest) => Some (JStr body, rest)
    | None => None
    end.
Proof. reflexivity. Qed.

Lemma parse_value_array f r :
  parse_value (S f) (String "[" r)
  = match after_char "]" (skip_ws r) with
    | Some rest => Some (JArr [], rest)
    | None => parse_elements f r []
    end.
Proof. reflexivity. Qed.

Lemma parse_value_object f r :
  parse_value (S f) (String "{" r)
  = match after_char "}" (skip_ws r) with
    | Some rest => Some (JObj [], rest)
    | None => parse_members f r []
    end.
Proof. reflexivity. Qed.

Lemma elems_text_cons x items tail :
  elems_text (x :: items) ++ String "]" tail
  = stringify x
    ++ match items with
       | [] => String "]" tail
       | _ :: _ => String "," (elems_text items ++ String "]" tail)
       end.
Proof.
  unfold elems_text, join. destruct items as [| y ys]; [reflexivity |].
  cbn [map String.concat]. now rewrite append_assoc.
Qed.

Lemma members_text_cons k x fields tail :
  members_text ((k, x) :: fields) ++ String "}" tail
  = String "034"
      (escape k
       ++ String "034"
            (String ":"
               (stringify x
                ++ match fields with
                   | [] => String "}" tail
                   | _ :: _ =>
                       String "," (members_text fields ++ String "}" tail)
                   end))).
Proof.
  unfold members_text, join.
  assert (H : forall t,
             member_text (k, x) ++ t
             = String "034"
                 (escape k ++ String "034" (String ":" (stringify x ++ t)))).
  { intros t. unfold member_text, quote, dquote. cbn [String.append].
    rewrite !append_assoc. cbn [String.append]. reflexivity. }
  destruct fields as [| kv fs]; cbn [map String.concat].
  - apply H.
  - rewrite append_assoc. apply H.
Qed.

Lemma obj_set_fresh k v acc :
  ~ In k (map fst acc) -> obj_set k v acc = (acc ++ [(k, v)])%list.
Proof.
  induction acc as [| [k' v'] acc IH]; simpl; intros H.
  - reflexivity.
  - destruct (String.eqb_spec k k') as [-> | Hne].
    + exfalso. apply H. now left.
    + rewrite IH; [reflexivity |]. intros Hin. apply H. now right.
Qed.

Lemma NoDup_app_head (acc : list (string * json)) k x fields :
  NoDup (map fst (acc ++ (k, x) :: fields)%list) ->
  ~ In k (map fst acc)
  /\ NoDup (map fst ((acc ++ [(k, x)]) ++ fields)%list).
Proof.
  intros H. split.
  - rewrite map_app in H. simpl in H. apply NoDup_remove_2 in H.
    intros Hin. apply H. apply in_or_app. now left.
  - now rewrite <- app_assoc.
Qed.

Lemma after_char_head c r d :
  is_json_ws c = false -> Ascii.eqb c d = false ->
  after_char d (skip_ws (String c r)) = None.
Proof.
  intros Hws Hc. cbn [skip_ws]. rewrite Hws. cbn [after_char]. now rewrite Hc.
Qed.

Lemma roundtrip_fuel fuel :
  (forall v rest,
      size v <= fuel -> wf v ->
      match v with JNum _ => number_goes_on rest = false | _ => True end ->
      parse_value fuel (stringify v ++ rest) = Some (v, rest))
  /\ (forall x items acc rest,
        size_items (x :: items) <= fuel -> wf_items (x :: items) ->
        parse_elements fuel (elems_text (x :: items) ++ String "]" rest) acc
        = Some (JArr (acc ++ x :: items), rest))
  /\ (forall kv fields acc rest,
        size_fields (kv :: fields) <= fuel -> wf_fields (kv :: fields) ->
        NoDup (map fst (acc ++ kv :: fields)%list) ->
        parse_members fuel (members_text (kv :: fields) ++ String "}" rest) acc
        = Some (JObj (acc ++ kv :: fields), rest)).
Proof.
  induction fuel as [| f (IHv & IHe & IHm)].
  - split; [| split].
    + intros v rest Hs. pose proof (size_pos v). lia.
    + intros x items acc rest Hs. simpl in Hs. lia.
    + intros [k x] fields acc rest Hs. simpl in Hs. lia.
  - split; [| split].
    + intros v rest Hs Hwf Hrest.
      destruct v as [| [] | n | s | items | fields]; try reflexivity.
      * destruct (show_Z_head n rest) as (c & r & Heq & Hc).
        simpl stringify. rewrite Heq, (parse_value_number f c r Hc), <- Heq.
        now apply parse_number_show.
      * simpl stringify. unfold quote, dquote. cbn [String.append].
        rewrite parse_value_string, append_assoc. cbn [String.append].
        now rewrite parse_chars_escape.
      * destruct items as [| x items]; [reflexivity |].
        change (stringify (JArr (x :: items)))
          with ("[" ++ elems_text (x :: items) ++ "]").
        cbn [String.append]. rewrite parse_value_array, append_assoc.
        cbn [String.append].
        assert (Hhead :
                  after_char "]"
                    (skip_ws (elems_text (x :: items) ++ String "]" rest))
                  = None).
        { rewrite elems_text_cons.
          match goal with
          | |- context [stringify x ++ ?t] =>
              destruct (stringify_head x t) as (c & r & Heq & Hws & Hc)
          end.
          rewrite Heq. now apply after_char_head. }
        rewrite Hhead. apply (IHe x items [] rest).
        -- simpl in Hs. unfold size_items. simpl. lia.
        -- exact Hwf.
      * destruct fields as [| [k x] fields]; [reflexivity |].
        change (stringify (JObj ((k, x) :: fields)))
          with ("{" ++ members_text ((k, x) :: fields) ++ "}").
        cbn [String.append]. rewrite parse_value_object, append_assoc.
        cbn [String.append].
        assert (Hhead :
                  after_char "}"
                    (skip_ws (members_text ((k, x) :: fields)
                              ++ String "}" rest))
                  = None).
        { rewrite members_text_cons. reflexivity. }
        rewrite Hhead. apply (IHm (k, x) fields [] rest).
        -- simpl in Hs. unfold size_fields. simpl. lia.
        -- apply Hwf.
        -- apply Hwf.
    + intros x items acc rest Hs [Hx Hitems].
      cbn [parse_elements]. rewrite elems_text_cons.
      assert (Hsx : size x <= f)
        by (unfold size_items in Hs; cbn [fold_right] in Hs; lia).
      destruct items as [| y ys].
      * rewrite (IHv x _ Hsx Hx) by (destruct x; auto). reflexivity.
      * rewrite (IHv x _ Hsx Hx) by (destruct x; auto).
        match goal with
        | |- context [after_char "," (skip_ws (String "," ?r))] =>
            change (after_char "," (skip_ws (String "," r))) with (Some r)
        end.
        cbv iota. rewrite (IHe y ys (acc ++ [x])%list rest).
        -- now rewrite <- app_assoc.
        -- unfold size_items in *. cbn [fold_right] in *. lia.
        -- exact Hitems.
    + intros [k x] fields acc rest Hs [Hx Hfields] Hnd.
      cbn [parse_members]. rewrite members_text_cons.
      assert (Hsx : size x <= f)
        by (unfold size_fields in Hs; cbn [fold_right] in Hs; lia).
      destruct (NoDup_app_head acc k x fields Hnd) as [Hfresh Hnd'].
      match goal with
      | |- context [after_char "034" (skip_ws (String "034" ?r))] =>
          change (after_char "034" (skip_ws (String "034" r))) with (Some r)
      end.
      cbv iota. rewrite parse_chars_escape.
      match goal with
      | |- context [after_char ":" (skip_ws (String ":" ?r))] =>
          change (after_char ":" (skip_ws (String ":" r))) with (Some r)
      end.
      cbv iota.
      destruct fields as [| kv fs];
        rewrite (IHv x _ Hsx Hx) by (destruct x; auto);
        rewrite (obj_set_fresh k x acc Hfresh).
      * reflexivity.
      * match goal with
        | |- context [after_char "," (skip_ws (String "," ?r))] =>
            change (after_char "," (skip_ws (String "," r))) with (Some r)
        end.
        cbv iota. rewrite (IHm kv fs (acc ++ [(k, x)])%list rest).
        -- now rewrite <- app_assoc.
        -- unfold size_fields in *. cbn [fold_right] in *. lia.
        -- exact Hfields.
        -- exact Hnd'.
Qed.

(** *** The image of the parser *)

Lemma wf_items_app a b : wf_items (a ++ b)%list <-> wf_items a /\ wf_items b.
Proof.
  unfold wf_items. induction a as [| x a IH]; simpl; [tauto |].
  rewrite IH. tauto.
Qed.

Lemma obj_set_keys k v acc x :
  In x (map fst (obj_set k v acc)) -> x = k \/ In x (map fst acc).
Proof.
  induction acc as [| [k' v'] acc IH]; simpl.
  - intros [<- | []]. now left.
  - destruct (String.eqb k k'); simpl; intros [<- | H]; auto.
    destruct (IH H); auto.
Qed.

Lemma obj_set_NoDup k v acc :
  NoDup (map fst acc) -> NoDup (map fst (obj_set k v acc)).
Proof.
  induction acc as [| [k' v'] acc IH]; simpl; intros H.
  - constructor; [intros [] | constructor].
  - inversion H as [| ? ? Hnotin Hnd]; subst.
    destruct (String.eqb_spec k k') as [-> | Hne]; simpl.
    + now constructor.
    + constructor; [| now apply IH].
      intros Hin. apply obj_set_keys in Hin as [-> | Hin]; auto.
Qed.

Lemma obj_set_wf k v acc :
  wf v -> wf_fields acc -> wf_fields (obj_set k v acc).
Proof.
  unfold wf_fields. intros Hv.
  induction acc as [| [k' v'] acc IH]; simpl.
  - tauto.
  - intros [H1 H2]. destruct (String.eqb k k'); simpl; tauto.
Qed.

Lemma parse_number_wf s v rest : parse_number s = Some (v, rest) -> wf v.
Proof.
  unfold parse_number.
  destruct (after_char "-" s);
    match goal with
    | |- context [parse_unsigned ?x] =>
        destruct (parse_unsigned x) as [[n r] |]
    end; intros [= <- <-] || discriminate; exact I.
Qed.

Lemma parse_wf fuel :
  (forall s v rest, parse_value fuel s = Some (v, rest) -> wf v)
  /\ (forall s acc v rest,
        wf_items acc -> parse_elements fuel s acc = Some (v, rest) -> wf v)
  /\ (forall s acc v rest,
        NoDup (map fst acc) -> wf_fields acc ->
        parse_members fuel s acc = Some (v, rest) -> wf v).
Proof.
  induction fuel as [| f (IHv & IHe & IHm)].
  - repeat split; intros; discriminate.
  - split; [| split].
    + intros s v rest. cbn [parse_value].
      destruct (skip_ws s) as [| c r]; [discriminate |].
      destruct (Ascii.eqb c "n");
        [unfold expect; destruct (strip_prefix _ _);
         [intros [= <- <-]; exact I | discriminate] |].
      destruct (Ascii.eqb c "t");
        [unfold expect; destruct (strip_prefix _ _);
         [intros [= <- <-]; exact I | discriminate] |].
      destruct (Ascii.eqb c "f");
        [unfold expect; destruct (strip_prefix _ _);
         [intros [= <- <-]; exact I | discriminate] |].
      destruct (Ascii.eqb c "034");
        [destruct (parse_chars r) as [[b r'] |];
         [intros [= <- <-]; exact I | discriminate] |].
      destruct (Ascii.eqb c "[").
      { destruct (after_char "]" (skip_ws r)).
        - intros [= <- <-]. exact I.
        - apply IHe. exact I. }
      destruct (Ascii.eqb c "{").
      { destruct (after_char "}" (skip_ws r)).
        - intros [= <- <-]. split; [constructor | exact I].
        - apply IHm; [constructor | exact I]. }
      apply parse_number_wf.
    + intros s acc v rest Hacc. cbn [parse_elements].
      destruct (parse_value f s) as [[x r1] |] eqn:Ev; [| discriminate].
      assert (Hx : wf_items (acc ++ [x])%list).
      { apply wf_items_app. split; [exact Hacc |].
        split; [now apply (IHv s x r1) | exact I]. }
      destruct (after_char "," (skip_ws r1)).
      * now apply IHe.
      * destruct (after_char "]" (skip_ws r1)); [| discriminate].
        intros [= <- <-]. exact Hx.
    + intros s acc v rest Hnd Hacc. cbn [parse_members].
      destruct (after_char "034" (skip_ws s)) as [r |]; [| discriminate].
      destruct (parse_chars r) as [[k r0] |]; [| discriminate].
      destruct (after_char ":" (skip_ws r0)) as [r1 |]; [| discriminate].
      destruct (parse_value f r1) as [[x r2] |] eqn:Ev; [| discriminate].
      pose proof (IHv r1 x r2 Ev) as Hx.
      destruct (after_char "," (skip_ws r2)).
      * apply IHm; [now apply obj_set_NoDup | now apply obj_set_wf].
      * destruct (after_char "}" (skip_ws r2)); [| discriminate].
        intros [= <- <-]. split; [now apply obj_set_NoDup | now apply obj_set_wf].
Qed.


Lemma length_append a b :
  String.length (a ++ b) = String.length a + String.length b.
Proof. induction a as [| c a IH]; simpl; [reflexivity | now rewrite IH]. Qed.

Lemma length_join_cons sep a b l :
  String.length (String.concat sep (a :: b :: l))
  = String.length a + String.length sep
    + String.length (String.concat sep (b :: l)).
Proof.
  change (String.concat sep (a :: b :: l))
    with (a ++ sep ++ String.concat sep (b :: l)).
  rewrite !length_append. lia.
Qed.

Lemma size_items_bound items :
  Forall (fun x => size x <= 2 * String.length (stringify x)) items ->
  size_items items <= 2 * String.length (elems_text items) + 1.
Proof.
  unfold size_items, elems_text, join.
  induction 1 as [| x items Hx Hitems IH]; [simpl; lia |].
  destruct items as [| y ys].
  - cbn [map String.concat fold_right]. lia.
  - cbn [map] in *. rewrite length_join_cons.
    change (fold_right (fun x0 n => S (size x0 + n)) 0 (x :: y :: ys))
      with (S (size x + fold_right (fun x0 n => S (size x0 + n)) 0 (y :: ys))).
    set (A := fold_right _ _ _) in *.
    set (L := String.length (String.concat _ _)) in *.
    cbn [String.length]. lia.
Qed.

Lemma size_fields_bound fields :
  Forall (fun kv : string * json =>
            size (snd kv) <= 2 * String.length (stringify (snd kv))) fields ->
  size_fields fields <= 2 * String.length (members_text fields) + 1.
Proof.
  unfold size_fields, members_text, join.
  induction 1 as [| [k x] fields Hx Hfields IH]; [simpl; lia |].
  cbn [snd] in Hx.
  assert (Hm : String.length (stringify x) <= String.length (member_text (k, x))).
  { unfold member_text. rewrite !length_append. lia. }
  set (M := String.length (member_text (k, x))) in *.
  destruct fields as [| kv fs].
  - cbn [map String.concat fold_right]. fold M. lia.
  - cbn [map] in *. rewrite length_join_cons. fold M.
    set (A := fold_right _ _ (kv :: fs)) in *.
    change (fold_right _ _ ((k, x) :: kv :: fs)) with (S (size x + A)).
    set (L := String.length (String.concat _ _)) in *.
    cbn [String.length]. lia.
Qed.

Lemma size_bound v : size v <= 2 * String.length (stringify v).
Proof.
  induction v as [| b | n | s | items IH | fields IH] using json_nested_ind.
  - simpl. lia.
  - destruct b; simpl; lia.
  - destruct (show_Z_head n "") as (c & r & H & _).
    rewrite append_nil_r in H. simpl. rewrite H. simpl. lia.
  - simpl. lia.
  - pose proof (size_items_bound items IH) as H.
    change (size (JArr items)) with (S (size_items items)).
    change (stringify (JArr items)) with ("[" ++ elems_text items ++ "]").
    rewrite !length_append. simpl String.length. lia.
  - pose proof (size_fields_bound fields IH) as H.
    change (size (JObj fields)) with (S (size_fields fields)).
    change (stringify (JObj fields)) with ("{" ++ members_text fields ++ "}").
    rewrite !length_append. simpl String.length. lia.
Qed.

Lemma ref_parse_stringify s v :
  parse s = Some v -> parse (stringify v) = Some v.
Proof.
  unfold parse at 1.
  destruct (parse_value _ s) as [[v' rest] |] eqn:E; [| discriminate].
  destruct (skip_ws rest); [| discriminate]. intros [= ->].
  pose proof (proj1 (parse_wf _) _ _ _ E) as Hwf.
  unfold parse.
  pose proof (proj1 (roundtrip_fuel (2 * String.length (stringify v) + 2))
                v "") as H.
  rewrite append_nil_r in H. rewrite H; [reflexivity | | exact Hwf |].
  - pose proof (size_bound v). lia.
  - destruct v; auto.
Qed.

Lemma ref_parse_rejects_E (rest : string) :
  parse (String "E"%char rest) = None.
Proof.
  unfold parse.
  destruct (2 * String.length (String "E"%char rest) + 2); reflexivity.
Qed.

#[export] Instance ref_laws : JSONLaws runtime.
Proof.
  constructor.
  - exact ref_parse_rejects_E.
  - exact ref_parse_stringify.
Qed.

End RefRuntimeFacts.

(* ------------------------------------------------------------------ *)
(** * The handler at work *)

Section Handler_examples.
Existing Instance RefRuntime.runtime.

(** The old format: the payload inside the item's text is found. *)
Example legacy_payload_found :
  scanned (mkGenResult "" [tool_step legacy_payload_text])
  = mkScan (Some (JObj [("transaction", JStr "AAA")])) None.
Proof. reflexivity. Qed.

(** A [null] item makes [item.type] throw inside the loop: the items after
    it are not looked at, and the handler of the outer [try] replaces the
    error recorded before the throw by the whole result string. *)
Example legacy_null_item_aborts :
  scanned (mkGenResult "" [tool_step legacy_null_item_text])
  = mkScan None (Some legacy_null_item_text).
Proof. reflexivity. Qed.

(** A payload assigned before a throw is kept. *)
Example legacy_payload_survives_throw :
  scanned (mkGenResult "" [tool_step legacy_number_text])
  = mkScan (Some (JObj [("transaction", JStr "AAA")])) None.
Proof. reflexivity. Qed.

(** A failure of the model run is the 500 response. *)
Example provider_failure :
  POST (Throw (Error "provider down"))
  = Http500 "Internal Server Error" "provider down".
Proof. reflexivity. Qed.

(** Nothing happened: an empty text reply. *)
Example nothing_happened :
  POST (Ret (mkGenResult "" [])) = Http200 (text_reply "").
Proof. reflexivity. Qed.

End Handler_examples.

(* ------------------------------------------------------------------ *)
(** * C1: an error followed by a payload *)


Section C1_on_the_executable_runtime.
Existing Instance RefRuntime.runtime.



End C1_on_the_executable_runtime.

(* ------------------------------------------------------------------ *)
(** * C2: the payload of the step-history scan *)

Lemma overwritten_none (rt : JSRuntime) p strs :
  (forall x, In x strs -> payload_of x = None) -> overwritten p strs = p.
Proof.
  unfold overwritten. revert p. induction strs as [| s strs IH]; intros p H.
  - reflexivity.
  - simpl. rewrite (H s) by now left. apply IH. intros x Hx. apply H. now right.
Qed.

Lemma overwritten_last (rt : JSRuntime) p strs s q :
  payload_of s = Some q -> overwritten p (strs ++ [s])%list = q.
Proof.
  intros H. unfold overwritten. rewrite fold_left_app. simpl. now rewrite H.
Qed.

(** C2, amended.  When a tool result of the step history parses to an
    object [v] whose [transaction] is truthy, [v] becomes the payload and
    the scan goes on: the payload after the scan is [v] overwritten by
    every later tool result that yields a payload; it is [v] itself when
    no later tool result yields one, so that the last one wins. *)
Theorem C2_last_payload_wins
  (rt : JSRuntime) (laws : JSONLaws rt) (result : GenResult)
  (pre post : list string) (s : string) (v : json) :
  result_strings (steps result) = (pre ++ s :: post)%list ->
  JSON_parse s = Some v ->
  truthy_field v "transaction" = true ->
  (forall st, scan_result_string s st = (Ret tt, mkScan (Some v) (toolError st)))
  /\ transactionData (scanned result) = Some (overwritten v post)
  /\ ((forall x, In x post -> payload_of x = None) ->
      transactionData (scanned result) = Some v).
Proof.
  intros Hstrs Hparse Htx.
  assert (Hscan : transactionData (scanned result) = Some (overwritten v post)).
  { rewrite scanned_eq, scan_strings_payload
      by (intros x Hx; now apply (result_strings_truthy (steps result))).
    rewrite Hstrs, fold_left_app. simpl.
    rewrite (payload_of_direct s v Hparse Htx). apply overwritten_fold. }
  split; [| split].
  - intros st. now apply scan_direct_payload.
  - exact Hscan.
  - intros Hnone. now rewrite Hscan, overwritten_none.
Qed.

Section C2_on_the_executable_runtime.
Existing Instance RefRuntime.runtime.

(** C2, as stated, fails: the scan does not stop at a payload.  In
    [c2_run] the first tool result parses to an object with a
    [transaction] key; a scan that stopped there would end with that
    object, the handler's scan ends with the second step's. *)
Lemma C2_counterexample :
  result_strings (steps c2_run) = [payload_text "AAA"; payload_text "BBB"]
  /\ JSON_parse (payload_text "AAA") = Some (JObj [("transaction", JStr "AAA")])
  /\ has_key (JObj [("transaction", JStr "AAA")]) "transaction" = true
  /\ transactionData (scan_stopping (result_strings (steps c2_run)) scan_init)
     = Some (JObj [("transaction", JStr "AAA")])
  /\ transactionData (scanned c2_run)
     = Some (JObj [("transaction", JStr "BBB")]).
Proof. repeat split. Qed.

Lemma C2_last_payload_wins_witness :
  (forall st,
     scan_result_string (payload_text "BBB") st
     = (Ret tt, mkScan (Some (JObj [("transaction", JStr "BBB")])) (toolError st)))
  /\ transactionData (scanned c2_run)
     = Some (JObj [("transaction", JStr "BBB")]).
Proof.
  destruct (C2_last_payload_wins RefRuntime.runtime RefRuntimeFacts.ref_laws
              c2_run [payload_text "AAA"] [] (payload_text "BBB")
              (JObj [("transaction", JStr "BBB")]) eq_refl eq_refl eq_refl)
    as (Hassign & _ & Hlast).
  split; [exact Hassign |]. apply Hlast. intros x [].
Defined.

End C2_on_the_executable_runtime.

(* ------------------------------------------------------------------ *)
(** * C3: what the executor hands back to the model *)

(** The executor on a call the bridge answers. *)
Lemma execute_answered
  (rt : JSRuntime) (mcp : McpClient)
  (tool_name argsStr : string) (args : json) (res : ToolResult) :
  JSON_parse argsStr = Some args ->
  client_callTool tool_name args = Ret res ->
  execute tool_name argsStr
  = Ret (match result_texts res with
         | _ :: _ => join nl (result_texts res)
         | [] =>
             if isError res
             then "Tool execution failed with an unknown error."
             else "Tool executed successfully but returned no content."
         end).
Proof.
  intros Hparse Hcall.
  unfold execute, parse_or_throw, callMcpTool. rewrite Hparse, Hcall. simpl.
  unfold result_texts. destruct (content res) as [items |]; simpl.
  - destruct (texts_of items); simpl; [destruct (isError res) |]; reflexivity.
  - destruct (isError res); reflexivity.
Qed.

(** C3, amended.  For every tool result the executor receives, the string
    handed back is the newline-joined concatenation of its non-empty text
    fragments whenever there is one, whether or not [isError] is set; only
    a result without text gives a failure string, which says "unknown
    error" when [isError] is set and "no content" otherwise. *)
Theorem C3_executor_result
  (rt : JSRuntime) (mcp : McpClient)
  (tool_name argsStr : string) (args : json) (res : ToolResult) :
  JSON_parse argsStr = Some args ->
  client_callTool tool_name args = Ret res ->
  execute tool_name argsStr
  = Ret (match result_texts res with
         | _ :: _ => join nl (result_texts res)
         | [] =>
             if isError res
             then "Tool execution failed with an unknown error."
             else "Tool executed successfully but returned no content."
         end).
Proof. apply execute_answered. Qed.

Section C3_on_the_executable_runtime.
Existing Instance RefRuntime.runtime.

(** C3, as stated, fails: a result that signals an error and has text is
    handed back as its joined text, not as a failure string. *)
Lemma C3_counterexample :
  client_callTool (McpClient := erroring_client) "swap" (JObj [])
  = Ret (mkToolResult
           (Some [mkContentItem "text" (Some "insufficient funds")]) true)
  /\ execute (mcp := erroring_client) "swap" "{}" = Ret "insufficient funds"
  /\ "insufficient funds" <> "Tool execution failed with an unknown error."
  /\ "insufficient funds" <> "Tool executed successfully but returned no content.".
Proof. repeat split; discriminate. Qed.

Lemma C3_executor_result_witness :
  execute (mcp := two_text_client) "create_genesis_account" "{}"
  = Ret ("Built." ++ nl ++ payload_text "AAA").
Proof.
  exact (C3_executor_result RefRuntime.runtime two_text_client
           "create_genesis_account" "{}" (JObj [])
           (mkToolResult
              (Some [mkContentItem "text" (Some "Built.");
                     mkContentItem "image" None;
                     mkContentItem "text" (Some (payload_text "AAA"))])
              false)
           eq_refl eq_refl).
Defined.

End C3_on_the_executable_runtime.

(* ------------------------------------------------------------------ *)
(** * C4: the reply for an empty final text *)

Lemma POST_content (rt : JSRuntime) result :
  exists body,
    POST (Ret result) = Http200 body
    /\ reply_content body = final_content result.
Proof.
  rewrite POST_returns. eexists; split; [reflexivity |].
  destruct (extracted result) as [p |]; [destruct (truthy p) |]; reflexivity.
Qed.


Section C4_on_the_executable_runtime.
Existing Instance RefRuntime.runtime.


End C4_on_the_executable_runtime.

(* ------------------------------------------------------------------ *)
(** * C5: from the bridge's result to the reply *)


Section C5_on_the_executable_runtime.
Existing Instance RefRuntime.runtime.



End C5_on_the_executable_runtime.

(* ------------------------------------------------------------------ *)
(** * C6: tool arguments that are not JSON *)

(** C6.  When the [arguments] string of a tool invocation is not valid
    JSON, the executor returns (it does not throw, whatever the bridge
    does) the string "Error: arguments must be a valid JSON string."; the
    scan files that string as the tool error and never as a payload; and
    for every model run that returns, the handler answers with a 200
    response, never a 500. *)
Theorem C6_malformed_arguments
  (rt : JSRuntime) (mcp : McpClient) (tool_name argsStr : string) :
  JSON_parse argsStr = None ->
  execute tool_name argsStr
  = Ret "Error: arguments must be a valid JSON string."
  /\ (forall st,
        scan_result_string "Error: arguments must be a valid JSON string." st
        = (Ret tt,
           mkScan (transactionData st)
             (Some "Error: arguments must be a valid JSON string.")))
  /\ (forall result, exists body, POST (Ret result) = Http200 body).
Proof.
  intros Hparse. split; [| split].
  - unfold execute, parse_or_throw. now rewrite Hparse.
  - intros st. now apply scan_error_marked.
  - intros result. rewrite POST_returns. eexists; reflexivity.
Qed.

Section C6_on_the_executable_runtime.
Existing Instance RefRuntime.runtime.

Lemma C6_malformed_arguments_witness :
  execute (mcp := down_client) "swap" "{amount: 1"
  = Ret "Error: arguments must be a valid JSON string."
  /\ (forall st,
        scan_result_string "Error: arguments must be a valid JSON string." st
        = (Ret tt,
           mkScan (transactionData st)
             (Some "Error: arguments must be a valid JSON string.")))
  /\ (forall result, exists body, POST (Ret result) = Http200 body).
Proof.
  exact (C6_malformed_arguments RefRuntime.runtime down_client
           "swap" "{amount: 1" eq_refl).
Defined.

End C6_on_the_executable_runtime.

(* ------------------------------------------------------------------ *)
(** * C7: the tool name and the envelope of the reply *)

(** C7, amended.  For every extracted payload object the reply is of type
    ["tool_result"], its [tool] is ["create_genesis_account"] exactly when
    the payload's [baseMint] is truthy and ["swap"] otherwise (no
    [baseMint], or one holding [null], [false], [0] or [""]), and its
    [result] wraps the serialised payload as the single item of a content
    array. *)
Theorem C7_classification
  (rt : JSRuntime) (result : GenResult) (fields : list (string * json)) :
  extracted result = Some (JObj fields) ->
  POST (Ret result)
  = Http200
      (mkReply "tool_result" (final_content result)
         (Some (if truthy_opt (lookup "baseMint" fields)
                then "create_genesis_account" else "swap"))
         (Some (mkEnvelope
                  [mkContentItem "text"
                     (Some (JSON_stringify (JObj fields)))]))).
Proof.
  intros He. rewrite POST_returns, He. reflexivity.
Qed.

Section C7_on_the_executable_runtime.
Existing Instance RefRuntime.runtime.

(** C7, as stated, fails: the payload of [c7_run_null] has a [baseMint]
    field (holding [null]) and the reply names the tool ["swap"]. *)
Lemma C7_counterexample :
  extracted c7_run_null
  = Some (JObj [("transaction", JStr "AAA"); ("baseMint", JNull)])
  /\ has_key (JObj [("transaction", JStr "AAA"); ("baseMint", JNull)])
       "baseMint" = true
  /\ POST (Ret c7_run_null)
     = Http200 (mkReply "tool_result" "Please sign." (Some "swap")
                  (Some (wrap null_mint_text))).
Proof. repeat split. Qed.

Lemma C7_classification_witness :
  POST (Ret c7_run)
  = Http200
      (mkReply "tool_result" "Please sign." (Some "create_genesis_account")
         (Some (mkEnvelope [mkContentItem "text" (Some mint_text)]))).
Proof.
  exact (C7_classification RefRuntime.runtime c7_run
           [("transaction", JStr "AAA"); ("baseMint", JStr "Mint111")]
           eq_refl).
Defined.

End C7_on_the_executable_runtime.

(* ------------------------------------------------------------------ *)
(** * C8 and C10: the scan of the final text *)


Lemma parse_capture_none (rt : JSRuntime) cap :
  parse_capture cap None = JSON_parse cap.
Proof.
  unfold parse_capture, parse_or_throw. destruct (JSON_parse cap); reflexivity.
Qed.


(** C10.  When the step-history scan found no payload, the fenced pattern
    matches the content and its capture does not parse, no payload is
    extracted and the reply is of type ["text"], whatever the bare pattern
    would match. *)
Theorem C10_no_bare_fallback
  (rt : JSRuntime) (result : GenResult) (cap : string) :
  transactionData (scanned result) = None ->
  String_match (final_content result) re_fenced = Some cap ->
  JSON_parse cap = None ->
  extracted result = None
  /\ POST (Ret result) = Http200 (text_reply (final_content result)).
Proof.
  intros Hn Hm Hp.
  assert (He : extracted result = None).
  { unfold extracted, scan_final_text. rewrite Hn, Hm. simpl.
    destruct (truthy_str (final_content result)); [| reflexivity].
    now rewrite parse_capture_none. }
  split; [exact He |]. now rewrite POST_returns, He.
Qed.

Section C8_C10_on_the_executable_runtime.
Existing Instance RefRuntime.runtime.


Lemma C10_no_bare_fallback_witness :
  String_match (text c10_run) re_bare = Some (payload_text "AAA")
  /\ JSON_parse (payload_text "AAA") = Some (JObj [("transaction", JStr "AAA")])
  /\ extracted c10_run = None
  /\ POST (Ret c10_run) = Http200 (text_reply (text c10_run)).
Proof.
  split; [reflexivity | split; [reflexivity |]].
  exact (C10_no_bare_fallback RefRuntime.runtime c10_run broken_text
           eq_refl eq_refl eq_refl).
Defined.

End C8_C10_on_the_executable_runtime.

(* ------------------------------------------------------------------ *)
(** * C9: extraction never raises *)




Section C9_on_the_executable_runtime.
Existing Instance RefRuntime.runtime.


End C9_on_the_executable_runtime.

(* ------------------------------------------------------------------ *)
(** * Further properties of the handler *)

(** X1.  Every 200 response is of one of two shapes: type ["text"] without
    [tool] and [result], or type ["tool_result"] with [tool] one of the two
    tool names and [result] a single text item. *)
Theorem reply_shape (rt : JSRuntime) (result : GenResult) :
  exists body,
    POST (Ret result) = Http200 body
    /\ ((reply_type body = "text"
         /\ reply_tool body = None /\ reply_result body = None)
        \/ (reply_type body = "tool_result"
            /\ (reply_tool body = Some "create_genesis_account"
                \/ reply_tool body = Some "swap")
            /\ exists txt, reply_result body = Some (wrap txt))).
Proof.
  rewrite POST_returns. eexists; split; [reflexivity |].
  destruct (extracted result) as [p |]; [| now left].
  destruct (truthy p); [| now left].
  right. simpl. split; [reflexivity |]. split; [| eauto].
  unfold tool_label. destruct (truthy_field p "baseMint"); auto.
Qed.


(** X2.  Whatever the step history, the payload the scan records is an
    object whose [transaction] is truthy, and the tool error it records is
    not empty. *)
Theorem scan_records (rt : JSRuntime) (result : GenResult) :
  (forall p,
     transactionData (scanned result) = Some p ->
     exists fields tx,
       p = JObj fields
       /\ lookup "transaction" fields = Some tx /\ truthy tx = true)
  /\ (forall e, toolError (scanned result) = Some e -> e <> "").
Proof.
  destruct (scanned_ok result) as [Hp He]. split.
  - intros p H. destruct (Hp p H) as (tx & Hf & Ht).
    destruct p; try discriminate. simpl in Hf. eauto.
  - intros e H ->. specialize (He "" H). discriminate.
Qed.

(** X3.  A payload found in the step history decides the reply whatever the
    final text says: the text is not scanned, and the reply's type, tool
    and result depend on the text only through its content. *)
Theorem step_payload_decides
  (rt : JSRuntime) (history : list Step) (p : json) :
  transactionData (exec (scan_steps history) scan_init) = Some p ->
  forall txt,
    POST (Ret (mkGenResult txt history))
    = Http200 (payload_reply p (if truthy_str txt then txt else announce p)).
Proof.
  intros H txt. apply (POST_scanned_payload (mkGenResult txt history) p H).
Qed.

Lemma payload_of_error_marked (rt : JSRuntime) s :
  error_marked s = true -> payload_of s = None.
Proof.
  intros H. unfold payload_of, exec. now rewrite (scan_error_marked s _ H).
Qed.

Lemma scan_strings_errors (rt : JSRuntime) errs e st :
  (forall x, In x (errs ++ [e])%list -> error_marked x = true) ->
  scan_strings (errs ++ [e])%list st = mkScan (transactionData st) (Some e).
Proof.
  revert st. induction errs as [| x errs IH]; intros st H.
  - simpl. unfold exec. rewrite scan_error_marked; [reflexivity |].
    apply H. now left.
  - simpl. unfold exec at 1.
    rewrite (scan_error_marked x st) by (apply H; now left). simpl.
    rewrite IH; [reflexivity |]. intros y Hy. apply H. now right.
Qed.

(** X4.  Errors after a payload do not discard it: when a tool result that
    parses to an object with a truthy [transaction] is followed only by
    error-marked tool results, the reply still carries the payload, and
    with an empty final text its content is the announcement, not the
    error; the last error is on record. *)
Theorem later_errors_keep_payload
  (rt : JSRuntime) (laws : JSONLaws rt) (result : GenResult)
  (pre errs : list string) (s e : string) (v : json) :
  result_strings (steps result) = (pre ++ s :: errs ++ [e])%list ->
  JSON_parse s = Some v ->
  truthy_field v "transaction" = true ->
  (forall x, In x (errs ++ [e])%list -> error_marked x = true) ->
  POST (Ret result)
  = Http200 (payload_reply v (if truthy_str (text result) then text result
                              else announce v))
  /\ toolError (scanned result) = Some e.
Proof.
  intros Hstrs Hparse Htx Herrs.
  assert (Hs : scanned result = mkScan (Some v) (Some e)).
  { rewrite scanned_eq, Hstrs, scan_strings_app.
    change (s :: errs ++ [e])%list with ([s] ++ (errs ++ [e]))%list.
    rewrite scan_strings_app, (scan_strings_errors rt errs e _ Herrs).
    simpl. unfold exec.
    now rewrite (scan_direct_payload s v _ Hparse Htx). }
  split; [| now rewrite Hs].
  apply POST_scanned_payload. now rewrite Hs.
Qed.

(* ------------------------------------------------------------------ *)
(** * The old MCP format *)

Section LegacyFacts.
Context {rt : JSRuntime}.

Lemma field_get_prop item k :
  item <> JNull -> get_prop item k = Ret (field item k).
Proof. apply get_prop_not_null. Qed.

(** The loop body on an item it does not throw on. *)
Lemma scan_legacy_item_ok item st :
  item_ok item = true ->
  scan_legacy_item item st = (Ret tt, legacy_effect st (legacy_text item)).
Proof.
  intros Hok.
  assert (Hn : item <> JNull) by (intros ->; discriminate).
  unfold scan_legacy_item, legacy_text, mbind, lift.
  rewrite (field_get_prop item "type" Hn).
  destruct (strict_eq_str (field item "type") "text") eqn:Hty;
    [| reflexivity].
  rewrite (field_get_prop item "text" Hn).
  unfold item_ok in Hok. rewrite Hty in Hok.
  destruct (truthy_opt (field item "text")) eqn:Htxt.
  - assert (Hs : exists t, field item "text" = Some (JStr t)).
    { destruct item; try contradiction;
        destruct (field _ "text") as [[]|]; try discriminate; eauto. }
    destruct Hs as [t Ht]. rewrite Ht in *. simpl in Htxt.
    unfold legacy_effect. rewrite Htxt. simpl string_receiver. cbv iota beta.
    destruct (startsWith t "Error:"); [reflexivity |].
    unfold mtry, mbind, lift, parse_or_throw.
    destruct (JSON_parse t) as [v |]; [| destruct st; reflexivity].
    unfold truthy_field. destruct v; simpl; try (destruct st; reflexivity).
    destruct (truthy_opt (lookup "transaction" fields));
      [reflexivity | destruct st; reflexivity].
  - unfold legacy_effect.
    destruct (field item "text") as [[]|]; try reflexivity;
      try (simpl in Htxt; unfold mret; simpl; now rewrite ?Htxt).
Qed.

(** The loop body on an item it throws on: a [TypeError], the state as it
    was. *)
Lemma scan_legacy_item_throws item st :
  item_ok item = false ->
  exists e, scan_legacy_item item st = (Throw e, st).
Proof.
  intros Hok. unfold scan_legacy_item, mbind, lift.
  destruct item as [| b | n | s | items | fields]; try discriminate.
  - eexists; reflexivity.
  - unfold item_ok in Hok. simpl field in Hok. cbn [get_prop].
    destruct (strict_eq_str (lookup "type" fields) "text") eqn:Hty;
      [| discriminate].
    destruct (truthy_opt (lookup "text" fields)) eqn:Htxt; [| discriminate].
    destruct (lookup "text" fields) as [[] |]; try discriminate;
      simpl in Htxt; rewrite ?Htxt; eexists; reflexivity.
Qed.

(** The loop over items that do not throw. *)
Lemma for_each_legacy_ok items st :
  forallb item_ok items = true ->
  for_each items scan_legacy_item st
  = (Ret tt, fold_left legacy_effect (map legacy_text items) st).
Proof.
  revert st. induction items as [| item items IH]; intros st H.
  - reflexivity.
  - simpl in H. apply andb_prop in H as [Hi Hrest].
    simpl. unfold mbind. rewrite (scan_legacy_item_ok item st Hi).
    now apply IH.
Qed.

(** The loop up to the first item that throws; the items after it are not
    looked at. *)
Lemma for_each_legacy_throws pre bad post st :
  forallb item_ok pre = true ->
  item_ok bad = false ->
  exists e,
    for_each (pre ++ bad :: post)%list scan_legacy_item st
    = (Throw e, fold_left legacy_effect (map legacy_text pre) st).
Proof.
  revert st. induction pre as [| item pre IH]; intros st H Hbad.
  - simpl. unfold mbind.
    destruct (scan_legacy_item_throws bad st Hbad) as [e He].
    rewrite He. eauto.
  - simpl in H. apply andb_prop in H as [Hi Hrest].
    simpl. unfold mbind. rewrite (scan_legacy_item_ok item st Hi).
    now apply IH.
Qed.

Lemma parsed_not_error_marked `{!JSONLaws rt} s v :
  JSON_parse s = Some v ->
  startsWith s "Error:" || startsWith s "Error executing" = false.
Proof.
  intros Hparse. fold (error_marked s).
  destruct (error_marked s) eqn:E; [| reflexivity].
  apply error_marked_E in E as [rest ->].
  now rewrite JSON_parse_rejects_E in Hparse.
Qed.

End LegacyFacts.

(** X5.  A tool result in the old MCP format, an array of content items
    none of which makes the loop throw, is scanned item by item in order:
    a text starting with ["Error:"] becomes the tool error, a text that
    parses to an object with a truthy [transaction] becomes the payload,
    any other item changes nothing; the last error and the last payload
    win. *)
Theorem legacy_array_scan
  (rt : JSRuntime) (laws : JSONLaws rt)
  (s : string) (items : list json) (st : scan_state) :
  JSON_parse s = Some (JArr items) ->
  forallb item_ok items = true ->
  scan_result_string s st
  = (Ret tt, fold_left legacy_effect (map legacy_text items) st).
Proof.
  intros Hparse Hok. unfold scan_result_string.
  rewrite (parsed_not_error_marked s _ Hparse).
  unfold mtry, mbind, lift, parse_or_throw. rewrite Hparse. simpl.
  now rewrite (for_each_legacy_ok items st Hok).
Qed.

(** X6.  An item the loop throws on ([null], or a text that is truthy and
    not a string) ends the scan of the array: the items before it have
    taken effect, the items after it are not looked at, and the whole
    result string becomes the tool error when it includes ["Error"]. *)
Theorem legacy_array_aborts
  (rt : JSRuntime) (laws : JSONLaws rt)
  (s : string) (pre post : list json) (bad : json) (st : scan_state) :
  JSON_parse s = Some (JArr (pre ++ bad :: post)%list) ->
  forallb item_ok pre = true ->
  item_ok bad = false ->
  scan_result_string s st
  = (Ret tt,
     let st1 := fold_left legacy_effect (map legacy_text pre) st in
     if includes s "Error" then mkScan (transactionData st1) (Some s)
     else st1).
Proof.
  intros Hparse Hpre Hbad. unfold scan_result_string.
  rewrite (parsed_not_error_marked s _ Hparse).
  unfold mtry, mbind, lift, parse_or_throw. rewrite Hparse. simpl.
  destruct (for_each_legacy_throws pre bad post st Hpre Hbad) as [e He].
  rewrite He. destruct (includes s "Error"); reflexivity.
Qed.

(* ------------------------------------------------------------------ *)
(** * Further properties of the executor *)

Lemma truthy_str_append a b :
  truthy_str a = true -> truthy_str (a ++ b) = true.
Proof. destruct a; [discriminate | reflexivity]. Qed.

Lemma texts_of_truthy items :
  Forall (fun t => truthy_str t = true) (texts_of items).
Proof.
  unfold texts_of. induction items as [| c items IH]; simpl; [constructor |].
  destruct (is_text_item c) eqn:E; [| exact IH].
  simpl. constructor; [| exact IH].
  unfold is_text_item in E. apply andb_prop in E as [_ E].
  unfold text_of. now destruct (item_text c).
Qed.

Lemma join_truthy sep t ts :
  truthy_str t = true -> truthy_str (join sep (t :: ts)) = true.
Proof.
  intros H. unfold join. simpl. destruct ts; [exact H |].
  now apply truthy_str_append.
Qed.

(** X7.  The executor never throws, whatever the arguments and whatever
    the bridge does, and the string it returns is never empty: every tool
    result it produces is looked at by the step-history scan. *)
Theorem execute_returns_text
  (rt : JSRuntime) (mcp : McpClient) (tool_name argsStr : string) :
  exists s,
    execute tool_name argsStr = Ret s
    /\ truthy_str s = true
    /\ forall st,
         scan_content_part (mkContentPart "tool-result" (Some (JStr s))) st
         = scan_result_string s st.
Proof.
  assert (Hscan : forall s, truthy_str s = true ->
            forall st,
              scan_content_part (mkContentPart "tool-result" (Some (JStr s))) st
              = scan_result_string s st).
  { intros s Hs st. unfold scan_content_part. simpl. now rewrite Hs. }
  unfold execute, parse_or_throw.
  destruct (JSON_parse argsStr) as [args |]; simpl;
    [| eexists; split; [reflexivity | split; [reflexivity | now apply Hscan]]].
  unfold callMcpTool. destruct (client_callTool tool_name args) as [res | err];
    simpl.
  - destruct (content res) as [items |].
    + pose proof (texts_of_truthy items) as Ht.
      destruct (texts_of items) as [| t ts]; simpl.
      * destruct (isError res); eexists;
          (split; [reflexivity | split; [reflexivity | now apply Hscan]]).
      * inversion Ht; subst.
        pose proof (join_truthy nl t ts H1) as Hj.
        eexists; split; [reflexivity | split; [exact Hj | now apply Hscan]].
    + destruct (isError res); eexists;
        (split; [reflexivity | split; [reflexivity | now apply Hscan]]).
  - eexists; split; [reflexivity | split; [reflexivity | now apply Hscan]].
Qed.

(** X8.  A call the bridge rejects is reported, not thrown: the executor
    returns "Error executing tool: " followed by the failure's message;
    the scan records that string as the tool error; and when it is the last
    tool result, no payload was found before it and the final text is
    empty, the reply's content is "There was an issue: " followed by it. *)
Theorem bridge_failure_surfaces
  (rt : JSRuntime) (mcp : McpClient)
  (tool_name argsStr : string) (args : json) (err : exn)
  (result : GenResult) (pre : list string) :
  JSON_parse argsStr = Some args ->
  client_callTool tool_name args = Throw err ->
  result_strings (steps result)
  = (pre ++ [("Error executing tool: " ++ message err)%string])%list ->
  transactionData (scan_strings pre scan_init) = None ->
  text result = "" ->
  execute tool_name argsStr = Ret ("Error executing tool: " ++ message err)
  /\ toolError (scanned result)
     = Some ("Error executing tool: " ++ message err)
  /\ exists body,
       POST (Ret result) = Http200 body
       /\ reply_content body
          = "There was an issue: Error executing tool: " ++ message err.
Proof.
  intros Hargs Hcall Hstrs Hpre Htext.
  assert (Hm : error_marked ("Error executing tool: " ++ message err) = true)
    by reflexivity.
  assert (Hs : scanned result
               = mkScan None (Some ("Error executing tool: " ++ message err))).
  { rewrite scanned_eq, Hstrs, scan_strings_app. simpl. unfold exec.
    rewrite (scan_error_marked _ _ Hm). simpl. now rewrite Hpre. }
  split; [| split].
  - unfold execute, parse_or_throw, callMcpTool. now rewrite Hargs, Hcall.
  - now rewrite Hs.
  - destruct (POST_content rt result) as (body & HP & Hc).
    exists body. split; [exact HP |]. rewrite Hc.
    unfold final_content, synthesize. rewrite Htext, Hs. reflexivity.
Qed.

(** X9.  An error result without text is not reported to the user.  The
    executor turns it into "Tool execution failed with an unknown error.";
    that string has no error marker and (it not being JSON) the scan's test
    for ["Error"], capital E, misses it, so the scan leaves payload and
    tool error as they were; when it is the only tool result and the final
    text is empty, the reply's content is made from the tool calls, never
    "There was an issue". *)
Theorem error_without_text_unreported
  (rt : JSRuntime) (mcp : McpClient)
  (tool_name argsStr : string) (args : json) (res : ToolResult)
  (result : GenResult) :
  JSON_parse argsStr = Some args ->
  client_callTool tool_name args = Ret res ->
  result_texts res = [] ->
  isError res = true ->
  JSON_parse "Tool execution failed with an unknown error." = None ->
  result_strings (steps result)
  = ["Tool execution failed with an unknown error."] ->
  text result = "" ->
  execute tool_name argsStr
  = Ret "Tool execution failed with an unknown error."
  /\ (forall st,
        scan_result_string "Tool execution failed with an unknown error." st
        = (Ret tt, st))
  /\ exists body,
       POST (Ret result) = Http200 body
       /\ reply_content body
          = if hadToolCalls (steps result) then
              if truthy_str (tool_result_text (steps result))
              then "Tool result: " ++ tool_result_text (steps result)
              else no_data_notice
            else "".
Proof.
  intros Hargs Hcall Htexts Herr Hparse Hstrs Htext.
  assert (Hscan : forall st,
            scan_result_string "Tool execution failed with an unknown error." st
            = (Ret tt, st)).
  { intros st. unfold scan_result_string.
    change (startsWith _ "Error:" || startsWith _ "Error executing")
      with false.
    unfold mtry, mbind, lift, parse_or_throw. rewrite Hparse.
    reflexivity. }
  split; [| split].
  - rewrite (execute_answered rt mcp _ _ _ _ Hargs Hcall), Htexts, Herr.
    reflexivity.
  - exact Hscan.
  - destruct (POST_content rt result) as (body & HP & Hc).
    exists body. split; [exact HP |]. rewrite Hc.
    assert (Hs : scanned result = scan_init).
    { rewrite scanned_eq, Hstrs. simpl. unfold exec. now rewrite Hscan. }
    unfold final_content, synthesize. rewrite Htext, Hs. reflexivity.
Qed.

(* ------------------------------------------------------------------ *)
(** * Where a payload comes from *)

Lemma assigns_only_mret {A} G (a : A) : assigns_only G (mret a).
Proof. intros st p H. now left. Qed.

Lemma assigns_only_lift {A} G (o : outcome A) : assigns_only G (lift o).
Proof. intros st p H. now left. Qed.

Lemma assigns_only_set_toolError G e : assigns_only G (set_toolError e).
Proof. intros st p H. now left. Qed.

Lemma assigns_only_set_transactionData (G : json -> Prop) v :
  G v -> assigns_only G (set_transactionData v).
Proof. intros Hv st p H. simpl in H. injection H as <-. now right. Qed.

Lemma assigns_only_mbind_lift {A B} G (o : outcome A) (k : A -> M B) :
  (forall a, o = Ret a -> assigns_only G (k a)) ->
  assigns_only G (mbind (lift o) k).
Proof.
  intros Hk st p. unfold mbind, lift. destruct o as [a | e].
  - now apply Hk.
  - intros H. now left.
Qed.

Lemma assigns_only_mbind {A B} G (m : M A) (k : A -> M B) :
  assigns_only G m -> (forall a, assigns_only G (k a)) ->
  assigns_only G (mbind m k).
Proof.
  intros Hm Hk st p. unfold mbind.
  specialize (Hm st). destruct (m st) as [[a | e] st']; simpl in *.
  - intros H. destruct (Hk a st' p H) as [H' | H']; auto.
  - apply Hm.
Qed.

Lemma assigns_only_mtry {A} G (m : M A) (h : exn -> M A) :
  assigns_only G m -> (forall e, assigns_only G (h e)) ->
  assigns_only G (mtry m h).
Proof.
  intros Hm Hh st p. unfold mtry.
  specialize (Hm st). destruct (m st) as [[a | e] st']; simpl in *.
  - apply Hm.
  - intros H. destruct (Hh e st' p H) as [H' | H']; auto.
Qed.

Lemma assigns_only_for_each {A} G (l : list A) (body : A -> M unit) :
  (forall x, In x l -> assigns_only G (body x)) ->
  assigns_only G (for_each l body).
Proof.
  induction l as [| x l IH]; intros H; simpl.
  - apply assigns_only_mret.
  - apply assigns_only_mbind; [apply H; now left |].
    intros _. apply IH. intros y Hy. apply H. now right.
Qed.

Section Provenance.
Context {rt : JSRuntime}.

Lemma assigns_only_legacy_item item :
  assigns_only
    (fun p => exists t, field item "text" = Some (JStr t)
                        /\ JSON_parse t = Some p)
    (scan_legacy_item item).
Proof.
  unfold scan_legacy_item.
  apply assigns_only_mbind_lift; intros ty _.
  destruct (strict_eq_str ty "text"); [| apply assigns_only_mret].
  apply assigns_only_mbind_lift; intros txt Htxt.
  destruct (truthy_opt txt); [| apply assigns_only_mret].
  apply assigns_only_mbind_lift; intros s Hs.
  destruct (startsWith s "Error:"); [apply assigns_only_set_toolError |].
  apply assigns_only_mtry; [| intros; apply assigns_only_mret].
  apply assigns_only_mbind_lift; intros inner Hin.
  apply assigns_only_mbind_lift; intros tx _.
  destruct (truthy_opt tx); [| apply assigns_only_mret].
  apply assigns_only_set_transactionData.
  exists s. split.
  - apply get_prop_field in Htxt. rewrite <- Htxt.
    destruct txt as [[] |]; try discriminate. now injection Hs as ->.
  - unfold parse_or_throw in Hin.
    destruct (JSON_parse s); [now injection Hin as -> | discriminate].
Qed.

Lemma assigns_only_result_string s :
  assigns_only (from_result s) (scan_result_string s).
Proof.
  unfold scan_result_string.
  destruct (startsWith s "Error:" || startsWith s "Error executing");
    [apply assigns_only_set_toolError |].
  apply assigns_only_mtry.
  - apply assigns_only_mbind_lift; intros parsed Hp.
    assert (Hparse : JSON_parse s = Some parsed).
    { unfold parse_or_throw in Hp.
      destruct (JSON_parse s); [now injection Hp as -> | discriminate]. }
    apply assigns_only_mbind_lift; intros tx _.
    destruct (truthy_opt tx).
    + apply assigns_only_set_transactionData. now left.
    + destruct parsed; try apply assigns_only_mret.
      apply assigns_only_for_each. intros item Hitem st p H.
      destruct (assigns_only_legacy_item item st p H)
        as [H' | (t & Ht & Hpt)]; [now left |].
      right. right. exists items, item, t. auto.
  - intros e. destruct (includes s "Error");
      [apply assigns_only_set_toolError | apply assigns_only_mret].
Qed.

Lemma scan_strings_provenance strs st p :
  transactionData (scan_strings strs st) = Some p ->
  transactionData st = Some p
  \/ exists s, In s strs /\ from_result s p.
Proof.
  revert st. induction strs as [| s strs IH]; intros st H; simpl in *.
  - now left.
  - destruct (IH _ H) as [H' | (x & Hx & Hf)].
    + destruct (assigns_only_result_string s st p H') as [H'' | H''];
        [now left | right; exists s; auto].
    + right. exists x. auto.
Qed.

End Provenance.

(** X10.  The extractor never makes a payload up.  The payload of the
    reply is what [JSON.parse] gives for a tool result of the step history,
    for the text of an item of a tool result that is an array, or for the
    capture of one of the two patterns in the reply's content. *)
Theorem payload_provenance
  (rt : JSRuntime) (result : GenResult) (p : json) :
  extracted result = Some p ->
  (exists s, In s (result_strings (steps result)) /\ from_result s p)
  \/ from_content (final_content result) p.
Proof.
  unfold extracted, scan_final_text. intros H.
  assert (Hsteps : transactionData (scanned result) = Some p ->
            exists s, In s (result_strings (steps result)) /\ from_result s p).
  { rewrite scanned_eq. intros Hs.
    destruct (scan_strings_provenance _ _ _ Hs) as [Hi | Hi];
      [discriminate | exact Hi]. }
  destruct (negb (truthy_opt (transactionData (scanned result)))
            && truthy_str (final_content result)); [| left; now apply Hsteps].
  unfold parse_capture, parse_or_throw in H.
  destruct (String_match (final_content result) re_fenced) as [cap |] eqn:Ef.
  - destruct (JSON_parse cap) as [v |] eqn:Ec; [| left; now apply Hsteps].
    injection H as <-. right. exists cap. auto.
  - destruct (String_match (final_content result) re_bare) as [cap |] eqn:Eb;
      [| left; now apply Hsteps].
    destruct (JSON_parse cap) as [v |] eqn:Ec; [| left; now apply Hsteps].
    injection H as <-. right. exists cap. auto.
Qed.

(* ------------------------------------------------------------------ *)
(** * The tool bridge's module *)



(** What a listing that returns tells about the module's variable. *)
Lemma listMcpTools_returns connect mcpClient tools :
  fst (Bridge.listMcpTools connect mcpClient) = Ret tools ->
  exists client,
    Bridge.listMcpTools connect mcpClient = (Ret tools, Some client)
    /\ Bridge.listTools client = Ret tools
    /\ (mcpClient = Some client
        \/ (mcpClient = None /\ connect = Ret client)).
Proof.
  unfold Bridge.listMcpTools, Bridge.getMcpClient, st_bind, st_lift.
  destruct mcpClient as [client |]; simpl.
  - intros H. exists client. rewrite H. auto.
  - destruct connect as [client | e]; simpl; [| discriminate].
    intros H. exists client. rewrite H. auto.
Qed.

Lemma getToolsDescription_listing (rt : JSRuntime) connect mcpClient :
  Bridge.getToolsDescription connect mcpClient
  = match Bridge.listMcpTools connect mcpClient with
    | (Ret tools, st) =>
        (Ret (join (nl ++ nl) (map Bridge.describe tools)), st)
    | (Throw e, st) => (Throw e, st)
    end.
Proof.
  unfold Bridge.getToolsDescription, st_bind.
  destruct (Bridge.listMcpTools connect mcpClient) as [[tools | e] st];
    reflexivity.
Qed.

(* ------------------------------------------------------------------ *)
(** * The handler from the request on *)

Lemma fold_push (h acc : list ChatMessage) :
  fold_left
    (fun messages msg =>
       (messages ++ [mkChatMessage (role msg) (msg_content msg)])%list)
    h acc
  = (acc ++ h)%list.
Proof.
  revert acc. induction h as [| [r c] h IH]; intros acc; simpl.
  - now rewrite List.app_nil_r.
  - rewrite IH, <- List.app_assoc. reflexivity.
Qed.

Lemma build_messages_eq message history :
  build_messages message history
  = (match history with Some h => h | None => [] end
     ++ [mkChatMessage "user" message])%list.
Proof.
  unfold build_messages. destruct history as [h |]; [| reflexivity].
  destruct h as [| m h]; [reflexivity |].
  cbn [length Nat.ltb Nat.leb]. now rewrite fold_push.
Qed.

(** X12.  A request that cannot be read or that the schema rejects is
    answered 500 with the exception's message, before anything else
    happens: the module's variable is as it was (no server is started),
    and neither the bridge nor the model provider has a say. *)
Theorem rejected_request_stops_early
  (rt : JSRuntime) (sv : Services)
  (connect : outcome Bridge.Client) (body : outcome json)
  (mcpClient : option Bridge.Client) (e : exn) :
  obind body RequestSchema_parse = Throw e ->
  POST_request connect body mcpClient
  = (Ret (Http500 "Internal Server Error" (message e)), mcpClient).
Proof.
  intros H. unfold POST_request, generate, st_bind, st_lift.
  destruct body as [b | e']; simpl in H.
  - rewrite H. reflexivity.
  - injection H as ->. reflexivity.
Qed.

(** X13.  When the tools cannot be listed, because no server can be
    started or because the listing fails, the request is answered 500 with
    that failure's message and the model is not run; after a failed
    connection the module is still unconnected. *)
Theorem listing_failure_stops_request
  (rt : JSRuntime) (sv : Services)
  (connect : outcome Bridge.Client) (body : outcome json)
  (mcpClient : option Bridge.Client) (request : Request) (e : exn) :
  obind body RequestSchema_parse = Ret request ->
  fst (Bridge.listMcpTools connect mcpClient) = Throw e ->
  POST_request connect body mcpClient
  = (Ret (Http500 "Internal Server Error" (message e)),
     snd (Bridge.listMcpTools connect mcpClient))
  /\ (mcpClient = None -> connect = Throw e ->
      snd (Bridge.listMcpTools connect mcpClient) = None).
Proof.
  intros Hreq Hlist. split.
  - unfold POST_request, generate, st_bind, st_lift.
    destruct body as [b | e']; simpl in Hreq; [| discriminate].
    rewrite Hreq. rewrite getToolsDescription_listing.
    destruct (Bridge.listMcpTools connect mcpClient) as [[tools | e'] st];
      simpl in *; [discriminate |].
    injection Hlist as ->. reflexivity.
  - intros -> ->. reflexivity.
Qed.


(** X15.  A 500 response has one of three causes: the request cannot be
    read or is rejected by the schema, the tools cannot be listed, or the
    model run throws; its details are that exception's message.  Neither
    a tool call nor the extraction makes the handler answer 500. *)
Theorem server_error_causes
  (rt : JSRuntime) (sv : Services)
  (connect : outcome Bridge.Client) (body : outcome json)
  (mcpClient : option Bridge.Client) (error details : string) :
  fst (POST_request connect body mcpClient) = Ret (Http500 error details) ->
  error = "Internal Server Error"
  /\ exists e,
       details = message e
       /\ (obind body RequestSchema_parse = Throw e
           \/ exists request,
                obind body RequestSchema_parse = Ret request
                /\ (fst (Bridge.listMcpTools connect mcpClient) = Throw e
                    \/ exists tools client,
                         Bridge.listMcpTools connect mcpClient
                         = (Ret tools, Some client)
                         /\ generateText
                              (system_prompt
                                 (join (nl ++ nl)
                                    (map Bridge.describe tools))
                                 (walletContext (req_walletAddress request)))
                              (build_messages (req_message request)
                                 (req_history request))
                              (execute (mcp := Bridge.client_of client))
                            = Throw e)).
Proof.
  unfold POST_request, generate, st_bind, st_lift.
  destruct body as [b | e]; cbn [obind];
    [| intros H; injection H as <- <-; eauto].
  destruct (RequestSchema_parse b) as [request | e];
    [| intros H; injection H as <- <-; eauto].
  rewrite getToolsDescription_listing.
  destruct (Bridge.listMcpTools connect mcpClient) as [[tools | e] st] eqn:Hl;
    [| intros H; injection H as <- <-; split; [reflexivity |];
       exists e; split; [reflexivity |]; right; exists request; auto].
  destruct (listMcpTools_returns connect mcpClient tools)
    as (client & Hc & _); [now rewrite Hl |].
  rewrite Hl in Hc. injection Hc as ->.
  cbn [fst].
  destruct (generateText _ _ _) as [result | e] eqn:Hg.
  - rewrite POST_returns. discriminate.
  - intros H. injection H as <- <-. split; [reflexivity |].
    exists e. split; [reflexivity |]. right. exists request.
    split; [reflexivity |]. right. exists tools, client. auto.
Qed.

(* ------------------------------------------------------------------ *)
(** * What the system prompt holds *)










(* ------------------------------------------------------------------ *)
(** * The chat component and the endpoint's responses *)

Section ComponentFacts.
Context {rt : JSRuntime} {br : ChatInterface.Browser}.

Lemma or_default_truthy a b :
  truthy b = true -> truthy (ChatInterface.or_default a b) = true.
Proof.
  intros Hb. unfold ChatInterface.or_default.
  destruct a as [v |]; [| exact Hb].
  destruct (truthy v) eqn:Hv; [exact Hv | exact Hb].
Qed.

Lemma or_default_str s b :
  ChatInterface.or_default (Some (JStr s)) b
  = if truthy_str s then JStr s else b.
Proof. reflexivity. Qed.

(** The message for a 200 response. *)
Lemma assistantMsg_reply reply :
  ChatInterface.assistantMsg (response_data (Http200 reply))
  = Ret (ChatInterface.mkMessage "assistant"
           (JStr (if truthy_str (reply_content reply) then reply_content reply
                  else "I'm processing your request..."))
           (Some (JStr (if truthy_str (reply_type reply) then reply_type reply
                        else "text")))
           (option_map JStr (reply_tool reply))
           (option_map
              (fun r => JObj [("content", JArr (map item_data (env_content r)))])
              (reply_result reply))).
Proof.
  destruct reply as [ty c tl res].
  unfold ChatInterface.assistantMsg, response_data. cbn [get_prop obind].
  cbn [reply_type reply_content reply_tool reply_result].
  destruct tl as [t |], res as [r |], c, ty; reflexivity.
Qed.

(** The message for a 500 response. *)
Lemma assistantMsg_error error details :
  ChatInterface.assistantMsg (response_data (Http500 error details))
  = Ret (ChatInterface.mkMessage "assistant"
           (JStr (if truthy_str error then error
                  else "I'm processing your request..."))
           (Some (JStr (if truthy_str error then "error" else "text")))
           None None).
Proof.
  unfold ChatInterface.assistantMsg, response_data. cbn.
  destruct (truthy_str error); reflexivity.
Qed.

End ComponentFacts.

(** X17.  What the component shows for a response of the endpoint.  The
    message it adds is the assistant's and its content is never empty: for
    a 200 response the reply's content, or "I'm processing your
    request..." when that is empty, with the reply's type, tool and
    result; for a 500 response "Internal Server Error" with type
    ["error"], and the details of the failure are not shown. *)
Theorem response_shown
  (rt : JSRuntime) (generated : outcome GenResult) :
  exists m,
    ChatInterface.assistantMsg (response_data (POST generated)) = Ret m
    /\ ChatInterface.role m = "assistant"
    /\ truthy (ChatInterface.content m) = true
    /\ match generated with
       | Ret result =>
           ChatInterface.content m
           = JStr (if truthy_str (final_content result)
                   then final_content result
                   else "I'm processing your request...")
           /\ (ChatInterface.type m = Some (JStr "text")
               \/ ChatInterface.type m = Some (JStr "tool_result"))
       | Throw e =>
           m = ChatInterface.mkMessage "assistant"
                 (JStr "Internal Server Error") (Some (JStr "error"))
                 None None
       end.
Proof.
  destruct generated as [result | e].
  - rewrite POST_returns, assistantMsg_reply.
    eexists; split; [reflexivity |]. cbn [ChatInterface.role ChatInterface.content ChatInterface.type].
    assert (Hc : reply_content
                   match extracted result with
                   | Some p =>
                       if truthy p then payload_reply p (final_content result)
                       else text_reply (final_content result)
                   | None => text_reply (final_content result)
                   end = final_content result).
    { destruct (extracted result) as [p |]; [destruct (truthy p) |];
        reflexivity. }
    rewrite Hc. split; [reflexivity |]. split; [| split; [reflexivity |]].
    + simpl. now destruct (truthy_str (final_content result)) eqn:E.
    + destruct (extracted result) as [p |]; [destruct (truthy p) |]; auto.
  - unfold POST. cbn [obind]. rewrite assistantMsg_error.
    eexists; split; [reflexivity |]. auto.
Qed.

Section ButtonFacts.
Context {rt : JSRuntime} {laws : JSONLaws rt}.





End ButtonFacts.


(* ------------------------------------------------------------------ *)
(** * The chat component's state *)

Section StateFacts.
Context {rt : JSRuntime} {br : ChatInterface.Browser}.

Lemma handleSend_blank h s :
  truthy_str (ChatInterface.String_trim (ChatInterface.input s)) = false ->
  ChatInterface.handleSend h s = (Ret tt, s).
Proof.
  intros H. unfold ChatInterface.handleSend. now rewrite H.
Qed.

Lemma handleSend_sends h s :
  truthy_str (ChatInterface.String_trim (ChatInterface.input s)) = true ->
  ChatInterface.handleSend h s
  = (Ret tt,
     ChatInterface.mkState
       (ChatInterface.messages s
        ++ [ChatInterface.mkMessage "user" (JStr (ChatInterface.input s))
              None None None;
            answer h (sent_body h s)])
       "" false
       (ChatInterface.effects s ++ [ChatInterface.Fetch (sent_body h s)])).
Proof.
  intros H. unfold ChatInterface.handleSend. rewrite H. cbn [negb].
  unfold answer, sent_body.
  unfold st_bind, st_finally, st_try, st_lift, ChatInterface.setMessages,
    ChatInterface.setInput, ChatInterface.setLoading, ChatInterface.perform.
  cbn [ChatInterface.messages ChatInterface.input ChatInterface.loading
       ChatInterface.effects ChatInterface.content].
  destruct (ChatInterface.fetch h _) as [data | e]; cbn [obind];
    [destruct (ChatInterface.assistantMsg data) as [m | e] |];
    cbn [ChatInterface.messages ChatInterface.input ChatInterface.loading
         ChatInterface.effects]; rewrite <- List.app_assoc; reflexivity.
Qed.

Lemma assistantMsg_ok data m :
  ChatInterface.assistantMsg data = Ret m ->
  ChatInterface.role m = "assistant"
  /\ truthy (ChatInterface.content m) = true.
Proof.
  unfold ChatInterface.assistantMsg.
  destruct (get_prop data "content") as [c |]; [| discriminate].
  destruct (get_prop data "error") as [e |]; [| discriminate].
  destruct (get_prop data "type") as [ty |]; [| discriminate].
  destruct (get_prop data "tool") as [tl |]; [| discriminate].
  destruct (get_prop data "result") as [r |]; [| discriminate].
  cbn [obind]. intros Hm. injection Hm as <-. split; [reflexivity |].
  cbn [ChatInterface.content]. now apply or_default_truthy, or_default_truthy.
Qed.

Lemma answer_ok h body :
  ChatInterface.role (answer h body) = "assistant"
  /\ truthy (ChatInterface.content (answer h body)) = true.
Proof.
  unfold answer.
  destruct (obind (ChatInterface.fetch h body) ChatInterface.assistantMsg)
    as [m | e] eqn:E; [| split; reflexivity].
  destruct (ChatInterface.fetch h body) as [data | e]; [| discriminate].
  now apply (assistantMsg_ok data).
Qed.

(** [handleSignAndSend] with a wallet, in closed form. *)
Lemma handleSignAndSend_connected h base64Tx key s address :
  ChatInterface.publicKey h = Some address ->
  let more m es :=
    ChatInterface.mkState (ChatInterface.messages s ++ [m])
      (ChatInterface.input s) (ChatInterface.loading s)
      (ChatInterface.effects s ++ es) in
  ChatInterface.handleSignAndSend h base64Tx key s
  = (Ret tt,
     match prepared base64Tx key with
     | Throw e =>
         more (ChatInterface.failed e) [ChatInterface.ConsoleError e]
     | Ret tx =>
         match ChatInterface.sendTransaction h tx with
         | Throw e =>
             more (ChatInterface.failed e)
               [ChatInterface.SendTransaction tx;
                ChatInterface.ConsoleError e]
         | Ret signature =>
             match ChatInterface.confirmTransaction h signature with
             | Throw e =>
                 more (ChatInterface.failed e)
                   [ChatInterface.SendTransaction tx;
                    ChatInterface.ConfirmTransaction signature;
                    ChatInterface.ConsoleError e]
             | Ret _ =>
                 more (ChatInterface.confirmed signature)
                   [ChatInterface.SendTransaction tx;
                    ChatInterface.ConfirmTransaction signature]
             end
         end
     end).
Proof.
  intros Hpk. unfold ChatInterface.handleSignAndSend. rewrite Hpk.
  unfold prepared, st_try, st_bind, st_lift, st_ret, ChatInterface.perform,
    ChatInterface.setMessages.
  destruct (ChatInterface.deserialize base64Tx) as [raw | e];
    cbn [obind]; [| reflexivity].
  destruct key as [k |]; [destruct (truthy k) |].
  - destruct (ChatInterface.fromSecretKey k) as [kp | e];
      cbn [obind]; [| reflexivity].
    destruct (ChatInterface.sign raw kp) as [tx | e]; [| reflexivity].
    destruct (ChatInterface.sendTransaction h tx) as [sg | e];
      [destruct (ChatInterface.confirmTransaction h sg) as [[] | e] |];
      cbn [ChatInterface.messages ChatInterface.input ChatInterface.loading
           ChatInterface.effects]; rewrite <- ?List.app_assoc; reflexivity.
  - destruct (ChatInterface.sendTransaction h raw) as [sg | e];
      [destruct (ChatInterface.confirmTransaction h sg) as [[] | e] |];
      cbn [ChatInterface.messages ChatInterface.input ChatInterface.loading
           ChatInterface.effects]; rewrite <- ?List.app_assoc; reflexivity.
  - destruct (ChatInterface.sendTransaction h raw) as [sg | e];
      [destruct (ChatInterface.confirmTransaction h sg) as [[] | e] |];
      cbn [ChatInterface.messages ChatInterface.input ChatInterface.loading
           ChatInterface.effects]; rewrite <- ?List.app_assoc; reflexivity.
Qed.

End StateFacts.

Section SettledFacts.
Context {rt : JSRuntime} {br : ChatInterface.Browser}.

Lemma handleSignAndSend_messages h base64Tx key s :
  let s' := snd (ChatInterface.handleSignAndSend h base64Tx key s) in
  ChatInterface.loading s' = ChatInterface.loading s
  /\ (ChatInterface.messages s' = ChatInterface.messages s
      \/ (exists signature,
            ChatInterface.messages s'
            = (ChatInterface.messages s
               ++ [ChatInterface.confirmed signature])%list)
      \/ (exists e,
            ChatInterface.messages s'
            = (ChatInterface.messages s ++ [ChatInterface.failed e])%list)).
Proof.
  destruct (ChatInterface.publicKey h) as [address |] eqn:Hpk.
  - rewrite (handleSignAndSend_connected h base64Tx key s address Hpk).
    cbn [snd].
    destruct (prepared base64Tx key) as [tx | e]; [| cbn; eauto].
    destruct (ChatInterface.sendTransaction h tx) as [sg | e]; [| cbn; eauto].
    destruct (ChatInterface.confirmTransaction h sg) as [[] | e]; cbn; eauto.
  - unfold ChatInterface.handleSignAndSend. rewrite Hpk. cbn. auto.
Qed.

Lemma settled_more s s' m :
  settled s ->
  ChatInterface.messages s' = (ChatInterface.messages s ++ [m])%list ->
  ChatInterface.loading s' = false ->
  truthy (ChatInterface.content m) = true ->
  ChatInterface.role m = "user" \/ ChatInterface.role m = "assistant" ->
  settled s'.
Proof.
  intros ([rest Hm] & Hl & Hall) Hm' Hl' Hc Hr. split; [| split].
  - exists (rest ++ [m])%list. now rewrite Hm', Hm.
  - exact Hl'.
  - rewrite Hm'. apply Forall_app. split; [exact Hall |].
    constructor; [auto | constructor].
Qed.

Lemma handleSend_settled `{!TrimLaws br} h s :
  settled s -> settled (snd (ChatInterface.handleSend h s)).
Proof.
  intros Hs.
  destruct (truthy_str (ChatInterface.String_trim (ChatInterface.input s)))
    eqn:Ht.
  - rewrite (handleSend_sends h s Ht). cbn [snd].
    assert (Hin : truthy_str (ChatInterface.input s) = true).
    { destruct (ChatInterface.input s); [| reflexivity].
      now rewrite trim_empty in Ht. }
    destruct (answer_ok h (sent_body h s)) as [Hr Hc].
    change (ChatInterface.messages s ++ [?a; ?b])%list
      with (ChatInterface.messages s ++ [a] ++ [b])%list.
    rewrite List.app_assoc.
    eapply settled_more with
      (s := ChatInterface.mkState (ChatInterface.messages s ++ [_])%list "" false
              (ChatInterface.effects s));
      [| reflexivity | reflexivity | exact Hc | now right].
    eapply settled_more with (s := s);
      [exact Hs | reflexivity | reflexivity | exact Hin | now left].
  - now rewrite (handleSend_blank h s Ht).
Qed.

Lemma dispatch_settled `{!TrimLaws br} h e s :
  settled s -> settled (snd (ChatInterface.dispatch h e s)).
Proof.
  intros Hs. destruct e as [value | | key shiftKey | | i];
    cbn [ChatInterface.dispatch].
  - destruct Hs as (Hm & Hl & Hall). now split.
  - now apply handleSend_settled.
  - unfold ChatInterface.handleKeyDown.
    destruct (String.eqb key "Enter" && negb shiftKey);
      [now apply handleSend_settled | exact Hs].
  - destruct Hs as (_ & Hl & _). split; [| split].
    + now exists [].
    + exact Hl.
    + constructor; [split; [reflexivity | now right] | constructor].
  - destruct (nth_error (ChatInterface.messages s) i) as [m |]; [| exact Hs].
    destruct (ChatInterface.sign_button m) as [[txData |] | err];
      try exact Hs.
    pose proof (handleSignAndSend_messages h
                  (ChatInterface.transaction txData)
                  (ChatInterface.mintSecretKey txData) s) as [Hl Hm].
    cbv zeta in Hl, Hm.
    destruct Hs as (Hi & Hl0 & Hall).
    destruct Hm as [Hm | [[sg Hm] | [err Hm]]].
    + split; [| split]; rewrite ?Hm, ?Hl; auto.
    + eapply settled_more with (s := s);
        [now split | exact Hm | now rewrite Hl | reflexivity | now right].
    + eapply settled_more with (s := s);
        [now split | exact Hm | now rewrite Hl | reflexivity | now right].
Qed.

Lemma run_settled `{!TrimLaws br} events s :
  settled s -> settled (ChatInterface.run events s).
Proof.
  revert s. induction events as [| [h e] events IH]; intros s Hs;
    [exact Hs |].
  cbn [ChatInterface.run]. now apply IH, dispatch_settled.
Qed.

End SettledFacts.

(** X19.  Whatever the user does, and whatever the network and the wallet
    answer, between two events the first message is the greeting, the
    loading flag is off, and every message is the user's or the
    assistant's with a content that is not empty. *)
Theorem component_settles
  (rt : JSRuntime) (br : ChatInterface.Browser) (laws : TrimLaws br)
  (events : list (ChatInterface.hooks * ChatInterface.event)) :
  settled (ChatInterface.run events ChatInterface.initial).
Proof.
  apply run_settled. split; [| split].
  - now exists [].
  - reflexivity.
  - constructor; [split; [reflexivity | now right] | constructor].
Qed.

Section ConversationFacts.
Context {rt : JSRuntime} {br : ChatInterface.Browser}.

Lemma assistantMsg_plain response m :
  ChatInterface.assistantMsg (response_data response) = Ret m -> plain m.
Proof.
  destruct response as [reply | error details].
  - rewrite assistantMsg_reply. intros H. injection H as <-.
    split; [now right | eexists; reflexivity].
  - rewrite assistantMsg_error. intros H. injection H as <-.
    split; [now right | eexists; reflexivity].
Qed.

Lemma answer_plain h body : genuine h -> plain (answer h body).
Proof.
  intros Hg. unfold answer.
  destruct (ChatInterface.fetch h body) as [data | e] eqn:Hf; cbn [obind];
    [| split; [now right | eexists; reflexivity]].
  destruct (Hg body data Hf) as [response ->].
  destruct (ChatInterface.assistantMsg (response_data response)) as [m | e]
    eqn:Hm; [| split; [now right | eexists; reflexivity]].
  now apply (assistantMsg_plain response).
Qed.

Lemma dispatch_plain h e s :
  genuine h ->
  Forall plain (ChatInterface.messages s) ->
  Forall plain (ChatInterface.messages (snd (ChatInterface.dispatch h e s))).
Proof.
  intros Hg Hs. destruct e as [value | | key shiftKey | | i];
    cbn [ChatInterface.dispatch].
  - exact Hs.
  - destruct (truthy_str (ChatInterface.String_trim (ChatInterface.input s)))
      eqn:Ht.
    + rewrite (handleSend_sends h s Ht). cbn.
      apply Forall_app. split; [exact Hs |].
      constructor; [split; [now left | eexists; reflexivity] |].
      constructor; [now apply answer_plain | constructor].
    + now rewrite (handleSend_blank h s Ht).
  - unfold ChatInterface.handleKeyDown.
    destruct (String.eqb key "Enter" && negb shiftKey); [| exact Hs].
    destruct (truthy_str (ChatInterface.String_trim (ChatInterface.input s)))
      eqn:Ht.
    + rewrite (handleSend_sends h s Ht). cbn.
      apply Forall_app. split; [exact Hs |].
      constructor; [split; [now left | eexists; reflexivity] |].
      constructor; [now apply answer_plain | constructor].
    + now rewrite (handleSend_blank h s Ht).
  - constructor; [split; [now right | eexists; reflexivity] | constructor].
  - destruct (nth_error (ChatInterface.messages s) i) as [m |]; [| exact Hs].
    destruct (ChatInterface.sign_button m) as [[txData |] | err];
      try exact Hs.
    pose proof (handleSignAndSend_messages h
                  (ChatInterface.transaction txData)
                  (ChatInterface.mintSecretKey txData) s) as [_ Hm].
    cbv zeta in Hm.
    destruct Hm as [Hm | [[sg Hm] | [err Hm]]]; rewrite Hm; [exact Hs | |];
      (apply Forall_app; split; [exact Hs |]);
      (constructor; [split; [now right | eexists; reflexivity] | constructor]).
Qed.

Lemma run_plain events s :
  Forall (fun he => genuine (fst he)) events ->
  Forall plain (ChatInterface.messages s) ->
  Forall plain (ChatInterface.messages (ChatInterface.run events s)).
Proof.
  revert s. induction events as [| [h e] events IH]; intros s Hg Hs;
    [exact Hs |].
  inversion Hg; subst. cbn [ChatInterface.run].
  apply IH; [assumption |]. now apply dispatch_plain.
Qed.

(** The schema of [history] on what the component sends of plain
    messages. *)
Lemma history_parsed (msgs : list ChatInterface.Message) :
  Forall plain msgs ->
  exists cms,
    all_parsed
      (map (fun item => MessageSchema (Some item))
         (map (fun m => JObj [("role", JStr (ChatInterface.role m));
                              ("content", ChatInterface.content m)]) msgs))
    = Some cms
    /\ Forall2 shows msgs cms.
Proof.
  induction 1 as [| m msgs [Hr [c Hc]] _ (cms & Hp & Hall)].
  - exists []. split; [reflexivity | constructor].
  - exists (mkChatMessage (ChatInterface.role m) c :: cms).
    cbn [map all_parsed]. split.
    + assert (Hm : MessageSchema
                     (Some (JObj [("role", JStr (ChatInterface.role m));
                                  ("content", ChatInterface.content m)]))
                   = Some (mkChatMessage (ChatInterface.role m) c)).
      { rewrite Hc. destruct Hr as [-> | ->]; reflexivity. }
      rewrite Hm, Hp. reflexivity.
    + constructor; [split; [reflexivity | exact Hc] | exact Hall].
Qed.

(** The schema on the body [handleSend] sends. *)
Lemma sent_body_parsed {sv : Services} h s :
  Forall plain (skipn 1 (ChatInterface.messages s)) ->
  exists cms,
    RequestSchema_parse (sent_body h s)
    = Ret (mkRequest (ChatInterface.input s) (Some cms)
             (ChatInterface.publicKey h))
    /\ Forall2 shows (skipn 1 (ChatInterface.messages s)) cms.
Proof.
  intros Hplain.
  destruct (history_parsed _ Hplain) as (cms & Hp & Hshows).
  exists cms. split; [| exact Hshows].
  unfold RequestSchema_parse, RequestSchema, sent_body,
    ChatInterface.request_body.
  cbn [List.app lookup String.eqb Ascii.eqb Bool.eqb z_string z_optional
       z_array option_map].
  rewrite Hp. cbn [option_map].
  destruct (ChatInterface.publicKey h) as [address |]; reflexivity.
Qed.

Lemma run_plain_history events :
  Forall (fun he => genuine (fst he)) events ->
  Forall plain
    (skipn 1
       (ChatInterface.messages
          (ChatInterface.run events ChatInterface.initial))).
Proof.
  intros Hg.
  assert (Hall : Forall plain
                   (ChatInterface.messages
                      (ChatInterface.run events ChatInterface.initial))).
  { apply run_plain; [exact Hg |].
    constructor; [split; [now right | eexists; reflexivity] | constructor]. }
  destruct (ChatInterface.messages _) as [| m0 rest]; [constructor |].
  now inversion Hall.
Qed.

End ConversationFacts.

(** X20.  The model is given the conversation the component shows.  When
    the network has answered with responses of the endpoint so far, the
    body that [handleSend] sends for an input that is not blank is accepted
    by the endpoint's schema, and the messages the endpoint builds from it
    for the model are the messages shown before, the greeting left out,
    followed by the user's new message; the wallet address is the
    connected wallet's. *)
Theorem conversation_reaches_model
  (rt : JSRuntime) (br : ChatInterface.Browser) (sv : Services)
  (events : list (ChatInterface.hooks * ChatInterface.event))
  (h : ChatInterface.hooks) (s : ChatInterface.state) :
  Forall (fun he => genuine (fst he)) events ->
  s = ChatInterface.run events ChatInterface.initial ->
  truthy_str (ChatInterface.String_trim (ChatInterface.input s)) = true ->
  exists body request,
    ChatInterface.effects (snd (ChatInterface.handleSend h s))
    = (ChatInterface.effects s ++ [ChatInterface.Fetch body])%list
    /\ RequestSchema_parse body = Ret request
    /\ req_walletAddress request = ChatInterface.publicKey h
    /\ Forall2 shows
         (skipn 1 (ChatInterface.messages s)
          ++ [ChatInterface.mkMessage "user" (JStr (ChatInterface.input s))
                None None None])%list
         (build_messages (req_message request) (req_history request)).
Proof.
  intros Hg -> Ht.
  set (s := ChatInterface.run events ChatInterface.initial) in *.
  destruct (sent_body_parsed h s (run_plain_history events Hg))
    as (cms & Hp & Hshows).
  exists (sent_body h s),
         (mkRequest (ChatInterface.input s) (Some cms)
            (ChatInterface.publicKey h)).
  split; [now rewrite (handleSend_sends h s Ht) |].
  split; [exact Hp |]. split; [reflexivity |].
  rewrite build_messages_eq. cbn [req_message req_history].
  apply Forall2_app; [exact Hshows |].
  constructor; [split; reflexivity | constructor].
Qed.

(** X21.  Signing and sending.  Without a wallet [handleSignAndSend]
    alerts, adds no message and sends nothing.  With one it adds exactly
    one message; a transaction it sends is the deserialized one, signed
    with the mint key whenever a mint key is given; and the message is the
    confirmation, with the signature the wallet returned, only when the
    transaction was sent and confirmed, else it is the failure's. *)
Theorem sign_and_send
  (rt : JSRuntime) (br : ChatInterface.Browser)
  (h : ChatInterface.hooks) (base64Tx : json) (key : option json)
  (s : ChatInterface.state) :
  let s' := snd (ChatInterface.handleSignAndSend h base64Tx key s) in
  match ChatInterface.publicKey h with
  | None =>
      ChatInterface.messages s' = ChatInterface.messages s
      /\ ChatInterface.effects s'
         = (ChatInterface.effects s
            ++ [ChatInterface.Alert "Please connect your wallet first!"])%list
  | Some _ =>
      exists m more,
        ChatInterface.messages s' = (ChatInterface.messages s ++ [m])%list
        /\ ChatInterface.effects s' = (ChatInterface.effects s ++ more)%list
        /\ (forall tx,
              In (ChatInterface.SendTransaction tx) more ->
              prepared base64Tx key = Ret tx)
        /\ ((exists tx signature,
               prepared base64Tx key = Ret tx
               /\ ChatInterface.sendTransaction h tx = Ret signature
               /\ ChatInterface.confirmTransaction h signature = Ret tt
               /\ m = ChatInterface.confirmed signature
               /\ more = [ChatInterface.SendTransaction tx;
                          ChatInterface.ConfirmTransaction signature])
            \/ (exists e,
                  m = ChatInterface.failed e
                  /\ In (ChatInterface.ConsoleError e) more
                  /\ (prepared base64Tx key = Throw e
                      \/ (exists tx,
                            prepared base64Tx key = Ret tx
                            /\ (ChatInterface.sendTransaction h tx = Throw e
                                \/ exists signature,
                                     ChatInterface.sendTransaction h tx
                                     = Ret signature
                                     /\ ChatInterface.confirmTransaction h
                                          signature = Throw e)))))
  end.
Proof.
  intros s'. subst s'.
  destruct (ChatInterface.publicKey h) as [address |] eqn:Hpk.
  - rewrite (handleSignAndSend_connected h base64Tx key s address Hpk).
    cbn [snd].
    destruct (prepared base64Tx key) as [tx | e] eqn:Hprep.
    + destruct (ChatInterface.sendTransaction h tx) as [sg | e] eqn:Hsend.
      * destruct (ChatInterface.confirmTransaction h sg) as [[] | e] eqn:Hc.
        -- eexists _, _. split; [reflexivity |]. split; [reflexivity |].
           split.
           ++ intros tx' [H | [H | []]]; [now injection H as <- | discriminate].
           ++ left. exists tx, sg. auto.
        -- eexists _, _. split; [reflexivity |]. split; [reflexivity |].
           split.
           ++ intros tx' [H | [H | [H | []]]];
                [now injection H as <- | discriminate | discriminate].
           ++ right. exists e. split; [reflexivity |].
              split; [cbn; auto |]. right. exists tx. split; [reflexivity |].
              right. exists sg. auto.
      * eexists _, _. split; [reflexivity |]. split; [reflexivity |].
        split.
        -- intros tx' [H | [H | []]]; [now injection H as <- | discriminate].
        -- right. exists e. split; [reflexivity |].
           split; [cbn; auto |]. right. exists tx. auto.
    + eexists _, _. split; [reflexivity |]. split; [reflexivity |].
      split.
      * intros tx' [H | []]. discriminate.
      * right. exists e. split; [reflexivity |]. split; [cbn; auto |].
        now left.
  - unfold ChatInterface.handleSignAndSend. rewrite Hpk. cbn. auto.
Qed.


(* ------------------------------------------------------------------ *)
(** * The further properties on the executable runtime *)

Lemma ref_trim_laws : TrimLaws RefBrowser.browser.
Proof. constructor. reflexivity. Qed.

Lemma served_genuine (rt : JSRuntime) (br : ChatInterface.Browser)
  (sv : Services) (h : ChatInterface.hooks) connect mcpClient :
  (forall body, ChatInterface.fetch h body = served connect mcpClient body) ->
  genuine h.
Proof.
  intros Hf body data. rewrite Hf. unfold served.
  destruct (fst (POST_request connect (Ret body) mcpClient))
    as [response | e]; [| discriminate].
  intros H. injection H as <-. now exists response.
Qed.

Section Further_properties_on_the_executable_runtime.
Existing Instance RefRuntime.runtime.
Existing Instance RefBrowser.browser.
Existing Instance sample_services.

Lemma scan_records_witness :
  exists fields tx,
    JObj [("transaction", JStr "AAA")] = JObj fields
    /\ lookup "transaction" fields = Some tx /\ truthy tx = true.
Proof.
  exact (proj1 (scan_records RefRuntime.runtime c5_run)
           (JObj [("transaction", JStr "AAA")]) eq_refl).
Defined.

Lemma step_payload_decides_witness :
  POST (Ret (mkGenResult "Sign it." [tool_step (payload_text "AAA")]))
  = Http200
      (payload_reply (JObj [("transaction", JStr "AAA")]) "Sign it.").
Proof.
  exact (step_payload_decides RefRuntime.runtime
           [tool_step (payload_text "AAA")]
           (JObj [("transaction", JStr "AAA")]) eq_refl "Sign it.").
Defined.

Lemma later_errors_keep_payload_witness :
  POST (Ret payload_then_error_run)
  = Http200
      (payload_reply (JObj [("transaction", JStr "AAA")])
         (announce (JObj [("transaction", JStr "AAA")])))
  /\ toolError (scanned payload_then_error_run) = Some "Error: boom".
Proof.
  refine (later_errors_keep_payload RefRuntime.runtime
            RefRuntimeFacts.ref_laws payload_then_error_run [] []
            (payload_text "AAA") "Error: boom"
            (JObj [("transaction", JStr "AAA")]) eq_refl eq_refl eq_refl _).
  intros x [<- | []]. reflexivity.
Defined.

Lemma legacy_array_scan_witness :
  scan_result_string legacy_payload_text scan_init
  = (Ret tt, mkScan (Some (JObj [("transaction", JStr "AAA")])) None).
Proof.
  exact (legacy_array_scan RefRuntime.runtime RefRuntimeFacts.ref_laws
           legacy_payload_text
           [JObj [("type", JStr "text"); ("text", JStr (payload_text "AAA"))]]
           scan_init eq_refl eq_refl).
Defined.

Lemma legacy_array_aborts_witness :
  scan_result_string legacy_null_item_text scan_init
  = (Ret tt, mkScan None (Some legacy_null_item_text)).
Proof.
  exact (legacy_array_aborts RefRuntime.runtime RefRuntimeFacts.ref_laws
           legacy_null_item_text
           [JObj [("type", JStr "text"); ("text", JStr "Error: no funds")]]
           [JObj [("type", JStr "text"); ("text", JStr (payload_text "AAA"))]]
           JNull scan_init eq_refl eq_refl eq_refl).
Defined.

Lemma bridge_failure_surfaces_witness :
  execute (mcp := down_client) "swap" "{}"
  = Ret "Error executing tool: connection closed"
  /\ toolError (scanned bridge_down_run)
     = Some "Error executing tool: connection closed"
  /\ exists body,
       POST (Ret bridge_down_run) = Http200 body
       /\ reply_content body
          = "There was an issue: Error executing tool: connection closed".
Proof.
  exact (bridge_failure_surfaces RefRuntime.runtime down_client
           "swap" "{}" (JObj []) (Error "connection closed")
           bridge_down_run [] eq_refl eq_refl eq_refl eq_refl eq_refl).
Defined.

Lemma error_without_text_unreported_witness :
  execute (mcp := silent_error_client) "swap" "{}"
  = Ret "Tool execution failed with an unknown error."
  /\ (forall st,
        scan_result_string "Tool execution failed with an unknown error." st
        = (Ret tt, st))
  /\ exists body,
       POST (Ret silent_error_run) = Http200 body
       /\ reply_content body = no_data_notice.
Proof.
  exact (error_without_text_unreported RefRuntime.runtime silent_error_client
           "swap" "{}" (JObj []) (mkToolResult (Some []) true)
           silent_error_run
           eq_refl eq_refl eq_refl eq_refl eq_refl eq_refl eq_refl).
Defined.

Lemma payload_provenance_witness :
  (exists s,
     In s (result_strings (steps c5_run))
     /\ from_result s (JObj [("transaction", JStr "AAA")]))
  \/ from_content (final_content c5_run) (JObj [("transaction", JStr "AAA")]).
Proof.
  exact (payload_provenance RefRuntime.runtime c5_run
           (JObj [("transaction", JStr "AAA")]) eq_refl).
Defined.


Lemma rejected_request_stops_early_witness :
  POST_request (Ret sample_client) (Ret bad_body) None
  = (Ret (Http500 "Internal Server Error" "invalid request"), None).
Proof.
  exact (rejected_request_stops_early RefRuntime.runtime sample_services
           (Ret sample_client) (Ret bad_body) None (Error "invalid request")
           eq_refl).
Defined.

Lemma listing_failure_stops_request_witness :
  POST_request (Throw (Error "spawn failed")) (Ret sample_body) None
  = (Ret (Http500 "Internal Server Error" "spawn failed"), None)
  /\ POST_request (Ret mute_client) (Ret sample_body) None
     = (Ret (Http500 "Internal Server Error" "listing failed"),
        Some mute_client).
Proof.
  split.
  - exact (proj1
             (listing_failure_stops_request RefRuntime.runtime sample_services
                (Throw (Error "spawn failed")) (Ret sample_body) None
                (mkRequest "create a token" None None) (Error "spawn failed")
                eq_refl eq_refl)).
  - exact (proj1
             (listing_failure_stops_request RefRuntime.runtime sample_services
                (Ret mute_client) (Ret sample_body) None
                (mkRequest "create a token" None None)
                (Error "listing failed") eq_refl eq_refl)).
Defined.




Lemma component_settles_witness : settled sample_state.
Proof.
  exact (component_settles RefRuntime.runtime RefBrowser.browser
           ref_trim_laws sample_events).
Defined.

Lemma sample_events_genuine :
  Forall (fun he => genuine (fst he)) sample_events.
Proof.
  repeat constructor;
    apply (served_genuine _ _ _ sample_hooks (Ret sample_client) None);
    reflexivity.
Qed.

Lemma conversation_reaches_model_witness :
  exists body request,
    ChatInterface.effects (snd (ChatInterface.handleSend sample_hooks
                                  sample_state))
    = (ChatInterface.effects sample_state ++ [ChatInterface.Fetch body])%list
    /\ RequestSchema_parse body = Ret request
    /\ req_walletAddress request = Some "Wallet111"
    /\ Forall2 shows
         (skipn 1 (ChatInterface.messages sample_state)
          ++ [ChatInterface.mkMessage "user" (JStr "and now swap it")
                None None None])%list
         (build_messages (req_message request) (req_history request)).
Proof.
  exact (conversation_reaches_model RefRuntime.runtime RefBrowser.browser
           sample_services sample_events sample_hooks sample_state
           sample_events_genuine eq_refl eq_refl).
Defined.

Lemma server_error_causes_witness :
  "Internal Server Error" = "Internal Server Error"
  /\ exists e,
       "invalid request" = message e
       /\ (obind (Ret bad_body) RequestSchema_parse = Throw e
           \/ exists request,
                obind (Ret bad_body) RequestSchema_parse = Ret request
                /\ (fst (Bridge.listMcpTools (Ret sample_client) None)
                    = Throw e
                    \/ exists tools client,
                         Bridge.listMcpTools (Ret sample_client) None
                         = (Ret tools, Some client)
                         /\ generateText
                              (system_prompt
                                 (join (nl ++ nl)
                                    (map Bridge.describe tools))
                                 (walletContext (req_walletAddress request)))
                              (build_messages (req_message request)
                                 (req_history request))
                              (execute (mcp := Bridge.client_of client))
                            = Throw e)).
Proof.
  exact (server_error_causes RefRuntime.runtime sample_services
           (Ret sample_client) (Ret bad_body) None
           "Internal Server Error" "invalid request" eq_refl).
Defined.


End Further_properties_on_the_executable_runtime.
